(** * scrypt_params.cc: the parameter-selection dispatcher of node-scrypt

    A shallow embedding of [src/node-boilerplate/scrypt_params.cc]:
    [ValidateArguments], [createJSONObject], [ParamsSync], [ParamsWork],
    [ParamsAsyncAfter] and [Params], over an explicit model of the part of
    the host (v8 values, the C++ heap, libuv's work queue) that the file
    touches. *)

From Stdlib Require Import ZArith Lia Bool.
From Stdlib Require Import Floats.SpecFloat.
From stdpp Require Import base option list strings gmap.

Local Open Scope Z_scope.

(** ** C++ scalars *)

(** [double] is IEEE 754 binary64, as the specification of floats of the
    standard library has it (sign, mantissa, exponent; signed zeros,
    infinities, NaN). *)
Definition double := spec_float.

(** [d <= 0] on doubles: false as soon as [d] is NaN. *)
Definition double_le_zero (d : double) : bool := SFleb d (S754_zero false).

(** [0 < d] on doubles. *)
Definition double_pos (d : double) : bool := SFltb (S754_zero false) d.

Definition INT_MIN : Z := - 2 ^ 31.
Definition INT_MAX : Z := 2 ^ 31 - 1.
Definition SIZE_BITS : Z := 64.

(** The integer obtained from a finite double by dropping its fractional
    part (rounding toward zero); [None] for infinities and NaN.  For a
    positive mantissa [Z.shiftl m e] is [m * 2^e] when [0 <= e] and the
    quotient of [m] by [2^(-e)] when [e < 0]. *)
Definition double_trunc (d : double) : option Z :=
  match d with
  | S754_zero _ => Some 0
  | S754_finite s m e =>
      let a := Z.shiftl (Z.pos m) e in
      Some (if s then - a else a)
  | S754_infinity _ | S754_nan => None
  end.

(** Initialising an [int] from a [double] ([int maxmemArg = ...->Value()]).
    The truncated value is stored when it is representable.  When it is not
    (too large, infinite, NaN) C++ leaves the result undefined; the model
    takes what the conversion instruction of x86-64 ([cvttsd2si]) delivers,
    the "integer indefinite" value [INT_MIN]. *)
Definition double_to_int (d : double) : Z :=
  match double_trunc d with
  | Some z => if (INT_MIN <=? z) && (z <=? INT_MAX) then z else INT_MIN
  | None => INT_MIN
  end.

(** [(size_t)i] for an [int] [i]: reduction modulo [2^SIZE_BITS]. *)
Definition size_t_of_int (i : Z) : Z := i mod 2 ^ SIZE_BITS.

(** A [uint32_t] passed where an [int32_t] is expected: the same 32 bits
    read as a signed number, so values from 2^31 on come out negative. *)
Definition int32_t_of_uint32_t (u : Z) : Z :=
  (u + 2 ^ 31) mod 2 ^ 32 - 2 ^ 31.

Definition maxmem_default : Z := 0.
(** 0.5 = 2^52 * 2^-53 *)
Definition maxmemfrac_default : double :=
  S754_finite false 4503599627370496 (-53).

(** ** JavaScript values *)

(** A function object is known by its identity. *)
Definition fn := nat.

#[warnings="-register-all"]
Inductive Value : Type :=
  | Undefined
  | Null
  | Boolean (b : bool)
  | Number (d : double)
  | Str (s : string)
  | Function (f : fn)
  | Object (props : list (string * Value))
  | Exception_Error (msg : string)
  | Exception_TypeError (msg : string).

Definition IsFunction (v : Value) : bool :=
  match v with Function _ => true | _ => false end.

Definition IsNumber (v : Value) : bool :=
  match v with Number _ => true | _ => false end.

(** [Local<Number>(v->ToNumber())->Value()]; only ever used on a value for
    which [IsNumber] holds, the other cases (conversion of a non-number) are
    given as NaN. *)
Definition NumberValue (v : Value) : double :=
  match v with Number d => d | _ => S754_nan end.

(** [args[i]] of v8's [Arguments]: [Undefined] outside of the list. *)
Definition Arguments_get (args : list Value) (i : Z) : Value :=
  if i <? 0 then Undefined else default Undefined (args !! Z.to_nat i).

(** [obj->Set(key, v)]: replaces the value of an existing key in place,
    appends a new key otherwise. *)
Fixpoint Object_Set (props : list (string * Value)) (key : string) (v : Value)
  : list (string * Value) :=
  match props with
  | [] => [(key, v)]
  | (k, w) :: rest =>
      if String.eqb k key then (k, v) :: rest
      else (k, w) :: Object_Set rest key v
  end.

(** ** ValidateArguments *)

(** The variables [ValidateArguments] receives by reference. *)
Record Refs : Type := mkRefs {
  message : string;
  maxmem : Z;
  maxmemfrac : double;
  maxtime : double;
  callbackPosition : Z
}.

Definition set_message (s : string) (v : Refs) : Refs :=
  mkRefs s (maxmem v) (maxmemfrac v) (maxtime v) (callbackPosition v).
Definition set_maxmem (x : Z) (v : Refs) : Refs :=
  mkRefs (message v) x (maxmemfrac v) (maxtime v) (callbackPosition v).
Definition set_maxmemfrac (x : double) (v : Refs) : Refs :=
  mkRefs (message v) (maxmem v) x (maxtime v) (callbackPosition v).
Definition set_maxtime (x : double) (v : Refs) : Refs :=
  mkRefs (message v) (maxmem v) (maxmemfrac v) x (callbackPosition v).
Definition set_callbackPosition (x : Z) (v : Refs) : Refs :=
  mkRefs (message v) (maxmem v) (maxmemfrac v) (maxtime v) x.

(** The body of [switch(i)] for the argument [a] at index [i]: [inl v'] when
    the case ends in [break] (or no case applies), [inr v'] when it ends in
    [return 1]. *)
Definition ValidateArguments_switch (i : nat) (a : Value) (v : Refs)
  : Refs + Refs :=
  match i with
  | 0%nat =>
      if negb (IsNumber a) then
        inr (set_message "maxtime argument must be a number" v)
      else
        let v := set_maxtime (NumberValue a) v in
        if double_le_zero (maxtime v) then
          inr (set_message "maxtime must be greater than 0" v)
        else inl v
  | 1%nat =>
      if negb (IsNumber a) then
        inr (set_message "max_memfrac argument must be a number" v)
      else
        let v := set_maxmemfrac (NumberValue a) v in
        if double_le_zero (maxmemfrac v) then
          inl (set_maxmemfrac maxmemfrac_default v)
        else inl v
  | 2%nat =>
      if negb (IsNumber a) then
        inr (set_message "maxmem argument must be a number" v)
      else
        let maxmemArg := double_to_int (NumberValue a) in
        if maxmemArg <? 0 then inl (set_maxmem maxmem_default v)
        else inl (set_maxmem (size_t_of_int maxmemArg) v)
  | _ => inl v
  end.

(** The [for] loop, from index [i] on; [rest] holds [args[i]], [args[i+1]],
    ... up to the end of the arguments. *)
Fixpoint ValidateArguments_loop (i : nat) (rest : list Value) (v : Refs)
  : Z * Refs :=
  match rest with
  | [] => (0, v)
  | a :: rest' =>
      if (0 <? i)%nat && IsFunction a then
        (0, set_callbackPosition (Z.of_nat i) v)
      else
        match ValidateArguments_switch i a v with
        | inr v' => (1, v')
        | inl v' => ValidateArguments_loop (S i) rest' v'
        end
  end.

Definition ValidateArguments (args : list Value) (v : Refs) : Z * Refs :=
  if (length args =? 0)%nat then
    (1, set_message
          "Wrong number of arguments: At least one argument is needed - the maxtime"
          v)
  else if (0 <? length args)%nat && IsFunction (Arguments_get args 0) then
    (1, set_message
          "Wrong number of arguments: At least one argument is needed before the callback - the maxtime"
          v)
  else ValidateArguments_loop 0 args v.

(** ** The host: C++ heap, persistent handles, work queue, observations *)

Definition addr := positive.

(** [struct Baton]. *)
Module Baton.
Record t : Type := mk {
  callback : option addr;   (* Persistent<Function>; [None] is the empty handle *)
  result : Z;
  maxmem : Z;
  maxmemfrac : double;
  maxtime : double;
  N : Z;
  r : Z;
  p : Z
}.

(** [new Baton()]: every member zero, the handle empty. *)
Definition zero : t :=
  mk None 0 0 (S754_zero false) (S754_zero false) 0 0 0.

Definition set_callback (x : option addr) (b : t) : t :=
  mk x (result b) (maxmem b) (maxmemfrac b) (maxtime b) (N b) (r b) (p b).
Definition set_maxmem (x : Z) (b : t) : t :=
  mk (callback b) (result b) x (maxmemfrac b) (maxtime b) (N b) (r b) (p b).
Definition set_maxmemfrac (x : double) (b : t) : t :=
  mk (callback b) (result b) (maxmem b) x (maxtime b) (N b) (r b) (p b).
Definition set_maxtime (x : double) (b : t) : t :=
  mk (callback b) (result b) (maxmem b) (maxmemfrac b) x (N b) (r b) (p b).
(** The four members [pickparams] is given to write: its return value goes
    to [result], and it holds pointers to [N], [r] and [p]. *)
Definition set_outcome (res : Z) (nrp : Z * Z * Z) (b : t) : t :=
  let '(n, r', p') := nrp in
  mk (callback b) res (maxmem b) (maxmemfrac b) (maxtime b) n r' p'.
End Baton.

(** [uv_work_t], of which the file uses the [data] pointer only. *)
Record uv_work_t : Type := mk_work { data : option addr }.

(** What the file can reach of the host.  [batons] and [requests] are the
    objects made by [new] and not yet deleted, [persistents] the persistent
    handles made by [Persistent::New] and not yet disposed, [work_queue] the
    requests handed to [uv_queue_work].  The other fields record what the
    host was told: the exception scheduled by [ThrowException], the calls of
    JavaScript functions, the exceptions given to [node::FatalException],
    and the calls of [pickparams] with their three inputs. *)
Record Host : Type := mkHost {
  batons : gmap addr Baton.t;
  requests : gmap addr uv_work_t;
  persistents : gmap addr Value;
  work_queue : list addr;
  exception : option Value;
  calls : list (fn * list Value);
  fatal : list Value;
  resolver_calls : list (Z * double * double)
}.

Definition set_batons (x : gmap addr Baton.t) (h : Host) : Host :=
  mkHost x (requests h) (persistents h) (work_queue h) (exception h)
         (calls h) (fatal h) (resolver_calls h).
Definition set_requests (x : gmap addr uv_work_t) (h : Host) : Host :=
  mkHost (batons h) x (persistents h) (work_queue h) (exception h)
         (calls h) (fatal h) (resolver_calls h).
Definition set_persistents (x : gmap addr Value) (h : Host) : Host :=
  mkHost (batons h) (requests h) x (work_queue h) (exception h)
         (calls h) (fatal h) (resolver_calls h).
Definition set_work_queue (x : list addr) (h : Host) : Host :=
  mkHost (batons h) (requests h) (persistents h) x (exception h)
         (calls h) (fatal h) (resolver_calls h).
Definition set_exception (x : option Value) (h : Host) : Host :=
  mkHost (batons h) (requests h) (persistents h) (work_queue h) x
         (calls h) (fatal h) (resolver_calls h).
Definition set_calls (x : list (fn * list Value)) (h : Host) : Host :=
  mkHost (batons h) (requests h) (persistents h) (work_queue h) (exception h)
         x (fatal h) (resolver_calls h).
Definition set_fatal (x : list Value) (h : Host) : Host :=
  mkHost (batons h) (requests h) (persistents h) (work_queue h) (exception h)
         (calls h) x (resolver_calls h).
Definition set_resolver_calls (x : list (Z * double * double)) (h : Host)
  : Host :=
  mkHost (batons h) (requests h) (persistents h) (work_queue h) (exception h)
         (calls h) (fatal h) x.

(** A host in which nothing has happened yet. *)
Definition Host_empty : Host := mkHost ∅ ∅ ∅ [] None [] [] [].

(** [ThrowException(e)]: schedules [e] for the caller. *)
Definition ThrowException (e : Value) (h : Host) : Host :=
  set_exception (Some e) h.

(** [node::FatalException(try_catch)]: hands the caught exception to the
    host's handler of uncaught exceptions. *)
Definition FatalException (e : Value) (h : Host) : Host :=
  set_fatal (fatal h ++ [e]) h.

(** [new Baton()] and [new uv_work_t()]: a fresh address. *)
Definition new_Baton (h : Host) : addr * Host :=
  let a := fresh (dom (batons h)) in
  (a, set_batons (<[a := Baton.zero]> (batons h)) h).

Definition new_uv_work_t (h : Host) : addr * Host :=
  let a := fresh (dom (requests h)) in
  (a, set_requests (<[a := mk_work None]> (requests h)) h).

(** [Persistent<Function>::New(f)]: a fresh persistent handle on [f].  The
    handle is made from the result of [Local<Function>::Cast], which does
    not check that its argument is a function, so it holds a value. *)
Definition Persistent_New (f : Value) (h : Host) : addr * Host :=
  let a := fresh (dom (persistents h)) in
  (a, set_persistents (<[a := f]> (persistents h)) h).

(** [handle.Dispose()]; disposing of the empty handle does nothing. *)
Definition Persistent_Dispose (hd : option addr) (h : Host) : Host :=
  match hd with
  | Some a => set_persistents (delete a (persistents h)) h
  | None => h
  end.

(** [uv_queue_work(uv_default_loop(), req, ParamsWork, ParamsAsyncAfter)]:
    the only pair of callbacks ever queued is that one, so the queue holds
    the requests; the loop later runs [ParamsWork] and then
    [ParamsAsyncAfter] on each of them. *)
Definition uv_queue_work (req : addr) (h : Host) : Host :=
  set_work_queue (work_queue h ++ [req]) h.

(** ** A stub resolver and host for concrete runs

    The resolver of the scenarios of the specification: it fails with code
    7 when [maxmem] is 1048576 and answers (16384, 8, 1) otherwise.
    Function 1 throws, every other function returns. *)

Definition stub_pickparams (maxmem : Z) (maxmemfrac maxtime : double)
    (cells : Z * Z * Z) : Z * (Z * Z * Z) :=
  if maxmem =? 1048576 then (7, cells) else (0, (16384, 8, 1)).

Definition stub_ScryptErrorDescr (code : Z) : string :=
  if code =? 7 then "error 7" else "some other error".

Definition stub_js_call (f : fn) (argv : list Value) : option Value :=
  if (f =? 1)%nat then Some (Str "thrown by the callback") else None.

(** The double nearest to an integer (the integer itself up to 2^53). *)
Definition double_of_Z (n : Z) : double := binary_normalize 53 1024 n 0 false.

(** The double that is exactly the integer [n], for [n] of less than 54
    bits: the mantissa is [n] shifted to 53 bits. *)
Definition double_of_int (n : Z) : double :=
  let k := 52 - Z.log2 (Z.abs n) in
  match n with
  | Z0 => S754_zero false
  | Zpos m => S754_finite false (Z.to_pos (Z.shiftl (Zpos m) k)) (- k)
  | Zneg m => S754_finite true (Z.to_pos (Z.shiftl (Zpos m) k)) (- k)
  end.

(** [Integer::New] makes the number that is the given [int32_t];
    [Integer::Value] reads the integer of a number back. *)
Definition stub_Integer_New (n : Z) : Value := Number (double_of_int n).

Definition stub_Integer_Value (v : Value) : option Z :=
  match v with
  | Number d => double_trunc d
  | _ => None
  end.

(** A resolver answering with [r] and [p] in the upper half of
    [uint32_t]. *)
Definition stub_pickparams_large (maxmem : Z) (maxmemfrac maxtime : double)
    (cells : Z * Z * Z) : Z * (Z * Z * Z) :=
  (0, (16384, 4294967295, 2147483648)).

(** 0.25 = 2^52 * 2^-54, and 2.5 = 5 * 2^51 * 2^-52 *)
Definition quarter : double := S754_finite false 4503599627370496 (-54).
Definition two_and_a_half : double :=
  S754_finite false 5629499534213120 (-51).

(** The arguments of the scenarios. *)
Definition args_maxtime_only : list Value := [Number (double_of_Z 5)].

Definition args_with_callback : list Value :=
  [Number (double_of_Z 5); Number quarter; Number (double_of_Z 1048576);
   Function 0%nat].

Definition args_bad_before_callback : list Value :=
  [Number (double_of_Z 5); Str "a half"; Function 0%nat].

Definition args_negative : list Value :=
  [Number (double_of_Z 5); Number (double_of_Z (-3));
   Number (double_of_Z (-1))].

Definition args_four_numbers : list Value :=
  [Number (double_of_Z 5); Number quarter; Number (double_of_Z 4096);
   Number (double_of_Z 7)].

Definition args_huge_maxmem : list Value :=
  [Number (double_of_Z 5); Number quarter; Number (double_of_Z (2 ^ 31))].

Definition args_nan : list Value :=
  [Number S754_nan; Number S754_nan; Function 0%nat].

(** A host with one request waiting for its completion step: baton 1, with
    result code [code] and the triple (16384, 8, 1), holding handle 1 on
    function [f]; request 1 pointing to the baton. *)
Definition host_awaiting_completion (code : Z) (f : fn) : Host :=
  mkHost {[ 1%positive :=
              Baton.mk (Some 1%positive) code 0 maxmemfrac_default
                (double_of_Z 5) 16384 8 1 ]}
         {[ 1%positive := mk_work (Some 1%positive) ]}
         {[ 1%positive := Function f ]}
         [1%positive] None [] [] [].

(** ** The functions of the file *)

Section Dispatcher.

(** [pickparams] of the scrypt library ([pickparams.h]): from [maxmem],
    [maxmemfrac], [maxtime] and the present contents of the three cells it
    is given pointers to, its return value and the contents of the cells
    when it returns. *)
Variable pickparams : Z -> double -> double -> Z * Z * Z -> Z * (Z * Z * Z).

(** [ScryptErrorDescr] of [scrypt_common.h]: the description of an error
    code. *)
Variable ScryptErrorDescr : Z -> string.

(** [Integer::New] of v8: the JavaScript number made from an [int32_t]. *)
Variable Integer_New : Z -> Value.

(** [Integer::Value] of v8: the integer a JavaScript number holds.  What is
    known of the two is that the second reads back what the first was
    given. *)
Variable Integer_Value : Value -> option Z.
Hypothesis Integer_New_Value :
  forall n, INT_MIN <= n <= INT_MAX -> Integer_Value (Integer_New n) = Some n.

(** What a JavaScript function does when it is called with the given
    arguments, as far as this file can see it: [Some e] when the call ends
    with the exception [e] thrown, [None] when it returns. *)
Variable js_call : fn -> list Value -> option Value.

(** A call of [pickparams], recorded in [resolver_calls]. *)
Definition call_pickparams (maxmem : Z) (maxmemfrac maxtime : double)
    (cells : Z * Z * Z) (h : Host) : Z * (Z * Z * Z) * Host :=
  (pickparams maxmem maxmemfrac maxtime cells,
   set_resolver_calls (resolver_calls h ++ [(maxmem, maxmemfrac, maxtime)]) h).

(** [N] is an [int]; [r] and [p] are [uint32_t] and [Integer::New] takes an
    [int32_t], so they are converted at the call. *)
Definition createJSONObject (N r p : Z) : Value :=
  let obj := [] in
  let obj := Object_Set obj "N" (Integer_New N) in
  let obj := Object_Set obj "r" (Integer_New (int32_t_of_uint32_t r)) in
  let obj := Object_Set obj "p" (Integer_New (int32_t_of_uint32_t p)) in
  Object obj.

(** The result is the returned handle and the host after the call. *)
Definition ParamsSync (maxmem : Z) (maxmemfrac maxtime : double) (h : Host)
  : Value * Host :=
  let '(result, (N, r, p), h) :=
    call_pickparams maxmem maxmemfrac maxtime (0, 0, 0) h in
  if negb (result =? 0) then
    (Undefined,
     ThrowException (Exception_TypeError (ScryptErrorDescr result)) h)
  else (createJSONObject N r p, h).

(** [req] is the pointer the function receives; the result is [None] when
    the function follows a pointer to an object that is not there. *)
Definition ParamsWork (req : addr) (h : Host) : option Host :=
  w ← requests h !! req;
  b ← data w;
  baton ← batons h !! b;
  let '(result, cells, h) :=
    call_pickparams (Baton.maxmem baton) (Baton.maxmemfrac baton)
      (Baton.maxtime baton)
      (Baton.N baton, Baton.r baton, Baton.p baton) h in
  Some (set_batons (<[b := Baton.set_outcome result cells baton]> (batons h)) h).

(** [handle->Call(Context::GetCurrent()->Global(), argc, argv)]: the call is
    recorded, and its exception, if any, is returned for the [TryCatch]. *)
Definition Function_Call (hd : option addr) (argv : list Value) (h : Host)
  : option (option Value * Host) :=
  a ← hd;
  v ← persistents h !! a;
  match v with
  | Function f => Some (js_call f argv, set_calls (calls h ++ [(f, argv)]) h)
  | _ => None
  end.

(** [TryCatch try_catch; callback->Call(...); if (try_catch.HasCaught())
    node::FatalException(try_catch);], which both branches of
    [ParamsAsyncAfter] end with. *)
Definition Call_TryCatch (hd : option addr) (argv : list Value) (h : Host)
  : option Host :=
  '(caught, h) ← Function_Call hd argv h;
  match caught with
  | Some e => Some (FatalException e h)
  | None => Some h
  end.

Definition ParamsAsyncAfter (req : addr) (h : Host) : option Host :=
  w ← requests h !! req;
  b ← data w;
  baton ← batons h !! b;
  h ← (if negb (Baton.result baton =? 0) then
         let err := Exception_Error (ScryptErrorDescr (Baton.result baton)) in
         Call_TryCatch (Baton.callback baton) [err] h
       else
         let obj :=
           createJSONObject (Baton.N baton) (Baton.r baton) (Baton.p baton) in
         Call_TryCatch (Baton.callback baton) [Null; obj] h);
  (* Clean up *)
  let h := Persistent_Dispose (Baton.callback baton) h in
  let h := set_batons (delete b (batons h)) h in
  let h := set_requests (delete req (requests h)) h in
  Some h.

Definition Refs_init : Refs :=
  mkRefs "" maxmem_default maxmemfrac_default (S754_zero false) (-1).

Definition Params (args : list Value) (h : Host) : Value * Host :=
  let '(rc, v) := ValidateArguments args Refs_init in
  if negb (rc =? 0) then
    (Undefined, ThrowException (Exception_TypeError (message v)) h)
  else if callbackPosition v =? -1 then
    ParamsSync (maxmem v) (maxmemfrac v) (maxtime v) h
  else
    let callback := Arguments_get args (callbackPosition v) in
    let '(b, h) := new_Baton h in
    let baton := Baton.zero in
    let baton := Baton.set_maxtime (maxtime v) baton in
    let baton := Baton.set_maxmemfrac (maxmemfrac v) baton in
    let baton := Baton.set_maxmem (maxmem v) baton in
    let '(hd, h) := Persistent_New callback h in
    let baton := Baton.set_callback (Some hd) baton in
    let h := set_batons (<[b := baton]> (batons h)) h in
    let '(req, h) := new_uv_work_t h in
    let h := set_requests (<[req := mk_work (Some b)]> (requests h)) h in
    let h := uv_queue_work req h in
    (Undefined, h).

(** ** Positions of the callable *)

(** [k] is the first index greater than 0 at which [args] holds a function,
    and that function is [f]. *)
Definition first_callable (args : list Value) (k : nat) (f : fn) : Prop :=
  (0 < k)%nat /\ args !! k = Some (Function f) /\
  forall j a, (0 < j < k)%nat -> args !! j = Some a -> IsFunction a = false.

(** [args] holds no function at an index greater than 0. *)
Definition no_callable_after_first (args : list Value) : Prop :=
  forall j a, (0 < j)%nat -> args !! j = Some a -> IsFunction a = false.

(** The host [Params] leaves behind on the asynchronous path, for the
    validated variables [v] and the callable [cb]. *)
Definition queued_baton (v : Refs) (h : Host) : Baton.t :=
  Baton.mk (Some (fresh (dom (persistents h)))) 0
           (maxmem v) (maxmemfrac v) (maxtime v) 0 0 0.

Definition queued_host (v : Refs) (cb : Value) (h : Host) : Host :=
  let b := fresh (dom (batons h)) in
  let hd := fresh (dom (persistents h)) in
  let req := fresh (dom (requests h)) in
  mkHost (<[b := queued_baton v h]> (<[b := Baton.zero]> (batons h)))
         (<[req := mk_work (Some b)]> (<[req := mk_work None]> (requests h)))
         (<[hd := cb]> (persistents h))
         (work_queue h ++ [req])
         (exception h) (calls h) (fatal h) (resolver_calls h).

(** The arguments of the continuation for the outcome [(result, N, r, p)]. *)
Definition completion_argv (result N r p : Z) : list Value :=
  if negb (result =? 0) then [Exception_Error (ScryptErrorDescr result)]
  else [Null; createJSONObject N r p].

(** The validation failures: no argument; a function as first argument; an
    argument at index 0, 1 or 2 that is not a number, with no function at
    the indexes from 1 up to it; a first argument that is a number [<= 0]. *)
Definition validation_failure (args : list Value) : Prop :=
  args = [] \/
  (exists f, args !! 0%nat = Some (Function f)) \/
  (exists i a, (i < 3)%nat /\ args !! i = Some a /\ IsNumber a = false /\
     forall j b, (0 < j <= i)%nat -> args !! j = Some b ->
                 IsFunction b = false) \/
  (exists t, args !! 0%nat = Some (Number t) /\ double_le_zero t = true).

(** [d < 0] on doubles. *)
Definition double_neg (d : double) : bool := SFltb d (S754_zero false).

(** The values a validated call leaves in [maxmemfrac] and [maxmem], read
    off the arguments at indexes 1 and 2. *)
Definition maxmemfrac_of (args : list Value) : double :=
  match args !! 1%nat with
  | Some (Number d) => if double_le_zero d then maxmemfrac_default else d
  | _ => maxmemfrac_default
  end.

Definition maxmem_of (args : list Value) : Z :=
  match args !! 1%nat, args !! 2%nat with
  | Some (Function _), _ => maxmem_default
  | _, Some (Number d) =>
      if double_to_int d <? 0 then maxmem_default
      else size_t_of_int (double_to_int d)
  | _, _ => maxmem_default
  end.

(** What the two steps of the asynchronous path follow pointers to from a
    request: its baton, the persistent handle the baton holds, and the
    function the handle is on; [None] when one of them is missing. *)
Definition request_parts (h : Host) (req : addr) : option (addr * addr * fn) :=
  w ← requests h !! req;
  b ← data w;
  baton ← batons h !! b;
  hd ← Baton.callback baton;
  v ← persistents h !! hd;
  match v with
  | Function f => Some (b, hd, f)
  | _ => None
  end.

(** Every request of the host has its parts, and two requests share neither
    their baton nor their handle. *)
Definition heap_ok (h : Host) : Prop :=
  (forall req, is_Some (requests h !! req) -> is_Some (request_parts h req)) /\
  (forall r1 r2 b1 hd1 f1 b2 hd2 f2,
     request_parts h r1 = Some (b1, hd1, f1) ->
     request_parts h r2 = Some (b2, hd2, f2) ->
     r1 <> r2 -> b1 <> b2 /\ hd1 <> hd2).

(** The hosts that calls of [Params], on any arguments, and runs of
    [ParamsWork] and [ParamsAsyncAfter], on any request and in any order,
    lead to from the empty host. *)
Inductive reachable : Host -> Prop :=
  | reachable_empty : reachable Host_empty
  | reachable_Params (args : list Value) (h : Host) :
      reachable h -> reachable (snd (Params args h))
  | reachable_ParamsWork (req : addr) (h h' : Host) :
      reachable h -> ParamsWork req h = Some h' -> reachable h'
  | reachable_ParamsAsyncAfter (req : addr) (h h' : Host) :
      reachable h -> ParamsAsyncAfter req h = Some h' -> reachable h'.

(** ** Lemmas on doubles *)

Lemma double_pos_not_le_zero (d : double) :
  double_pos d = true -> double_le_zero d = false.
Proof.
  destruct d as [s | s | | s m e]; try destruct s; cbn; congruence.
Qed.

Lemma double_to_int_range (d : double) :
  INT_MIN <= double_to_int d <= INT_MAX.
Proof.
  unfold double_to_int.
  destruct (double_trunc d) as [z |]; [| unfold INT_MIN, INT_MAX; lia].
  destruct ((INT_MIN <=? z) && (z <=? INT_MAX)) eqn:E;
    [| unfold INT_MIN, INT_MAX; lia].
  apply andb_true_iff in E as [E1 E2].
  apply Z.leb_le in E1, E2. lia.
Qed.

Lemma size_t_of_int_nonneg (i : Z) :
  0 <= i <= INT_MAX -> size_t_of_int i = i.
Proof.
  intros Hi. unfold size_t_of_int, SIZE_BITS.
  apply Z.mod_small. unfold INT_MAX in Hi. lia.
Qed.

Lemma double_neg_maxmem (d : double) :
  double_neg d = true ->
  (if double_to_int d <? 0 then maxmem_default
   else size_t_of_int (double_to_int d)) = 0.
Proof.
  intros Hneg.
  destruct (double_to_int d <? 0) eqn:E; [reflexivity |].
  apply Z.ltb_ge in E.
  destruct d as [s | s | | s m e]; try destruct s; try discriminate.
  - change (double_to_int (S754_infinity true)) with INT_MIN in E.
    unfold INT_MIN in E. lia.
  - unfold double_to_int in E |- *. cbn [double_trunc] in E |- *.
    pose proof (Z.shiftl_nonneg (Z.pos m) e) as [_ Hsh].
    specialize (Hsh ltac:(lia)).
    destruct ((INT_MIN <=? - Z.shiftl (Z.pos m) e) &&
              (- Z.shiftl (Z.pos m) e <=? INT_MAX));
      [| unfold INT_MIN in E; lia].
    assert (Z.shiftl (Z.pos m) e = 0) as -> by lia. reflexivity.
Qed.

(** ** Lemmas on the scan *)

Lemma switch_callbackPosition (i : nat) (a : Value) (v v' : Refs) :
  ValidateArguments_switch i a v = inl v' ->
  callbackPosition v' = callbackPosition v.
Proof.
  unfold ValidateArguments_switch.
  destruct i as [| [| [| i]]]; intros H;
    repeat match type of H with
           | (if ?c then _ else _) = _ => destruct c
           | (let _ := _ in _) = _ => cbv zeta in H
           end;
    inversion H; reflexivity.
Qed.

Lemma loop_classify (rest : list Value) :
  forall (i : nat) (v v' : Refs),
    ValidateArguments_loop i rest v = (0, v') ->
    (callbackPosition v' = callbackPosition v /\
     forall j a, (0 < i + j)%nat -> rest !! j = Some a -> IsFunction a = false)
    \/
    (exists k f, rest !! k = Some (Function f) /\ (0 < i + k)%nat /\
       callbackPosition v' = Z.of_nat (i + k) /\
       forall j a, (j < k)%nat -> (0 < i + j)%nat ->
                   rest !! j = Some a -> IsFunction a = false).
Proof.
  induction rest as [| a rest IH]; intros i v v' H; simpl in H.
  - left. inversion H; subst. split; [reflexivity |].
    intros j b _ Hb. rewrite lookup_nil in Hb. discriminate.
  - destruct ((0 <? i)%nat && IsFunction a) eqn:Hcb.
    + right. apply andb_true_iff in Hcb as [Hi Ha].
      apply Nat.ltb_lt in Hi.
      destruct a; try discriminate. inversion H; subst.
      exists 0%nat, f. cbn.
      split; [reflexivity |]. split; [lia |]. split; [f_equal; lia |].
      intros j b Hj. lia.
    + destruct (ValidateArguments_switch i a v) as [v0 | v0] eqn:Hsw;
        [| discriminate].
      apply switch_callbackPosition in Hsw.
      assert (Ha : (0 < i)%nat -> IsFunction a = false).
      { intros Hi. apply andb_false_iff in Hcb as [Hc | Hc]; [| exact Hc].
        apply Nat.ltb_ge in Hc. lia. }
      destruct (IH (S i) v0 v' H) as [[Hpos Hno] | (k & f & Hk & Hik & Hpos & Hno)].
      * left. split; [congruence |].
        intros [| j] b Hj Hb; cbn in Hb.
        -- inversion Hb; subst. apply Ha. lia.
        -- apply (Hno j b); [lia | exact Hb].
      * right. exists (S k), f. cbn.
        split; [exact Hk |]. split; [lia |].
        split; [rewrite Hpos; f_equal; lia |].
        intros [| j] b Hj Hij Hb; cbn in Hb.
        -- inversion Hb; subst. apply Ha. lia.
        -- apply (Hno j b); [lia | lia | exact Hb].
Qed.

Lemma loop_beyond_no_callable (rest : list Value) :
  forall (i : nat) (v : Refs),
    (3 <= i)%nat -> Forall (fun a => IsFunction a = false) rest ->
    ValidateArguments_loop i rest v = (0, v).
Proof.
  induction rest as [| a rest IH]; intros i v Hi Hall; [reflexivity |].
  inversion Hall as [| ? ? Ha Hrest]; subst. simpl.
  rewrite Ha, andb_false_r.
  destruct i as [| [| [| i]]]; try lia. cbn.
  apply IH; [lia | exact Hrest].
Qed.

Lemma loop_ignores_after_callable (pre : list Value) :
  forall (i : nat) (f : fn) (post post' : list Value) (v : Refs),
    (0 < i + length pre)%nat ->
    ValidateArguments_loop i (pre ++ Function f :: post) v =
    ValidateArguments_loop i (pre ++ Function f :: post') v.
Proof.
  induction pre as [| a pre IH]; intros i f post post' v Hi; simpl in *.
  - assert (H : (0 <? i)%nat = true) by (apply Nat.ltb_lt; lia).
    rewrite H. reflexivity.
  - destruct ((0 <? i)%nat && IsFunction a); [reflexivity |].
    destruct (ValidateArguments_switch i a v); [| reflexivity].
    apply IH. lia.
Qed.

Lemma ValidateArguments_loop_eq (args : list Value) (v v' : Refs) :
  ValidateArguments args v = (0, v') ->
  ValidateArguments_loop 0 args v = (0, v').
Proof.
  unfold ValidateArguments. intros H.
  destruct (length args =? 0)%nat; [discriminate |].
  destruct ((0 <? length args)%nat && IsFunction (Arguments_get args 0));
    [discriminate | exact H].
Qed.

Lemma ValidateArguments_classify (args : list Value) (v : Refs) :
  ValidateArguments args Refs_init = (0, v) ->
  (callbackPosition v = -1 /\ no_callable_after_first args) \/
  (exists k f, first_callable args k f /\ callbackPosition v = Z.of_nat k).
Proof.
  intros H. apply ValidateArguments_loop_eq in H.
  destruct (loop_classify _ _ _ _ H) as [[Hpos Hno] | (k & f & Hk & Hik & Hpos & Hno)].
  - left. split; [exact Hpos |]. intros j a Hj. apply Hno. lia.
  - right. exists k, f. split; [| exact Hpos].
    split; [lia |]. split; [exact Hk |].
    intros j a [Hj1 Hj2]. apply Hno; lia.
Qed.

Lemma first_callable_unique (args : list Value) (k k' : nat) (f f' : fn) :
  first_callable args k f -> first_callable args k' f' -> k = k' /\ f = f'.
Proof.
  intros (Hk & Hf & Hno) (Hk' & Hf' & Hno').
  assert (k = k') as ->.
  { destruct (Nat.lt_trichotomy k k') as [Hlt | [Heq | Hgt]]; [| exact Heq |].
    - specialize (Hno' k (Function f) (conj Hk Hlt) Hf). discriminate.
    - specialize (Hno k' (Function f') (conj Hk' Hgt) Hf'). discriminate. }
  split; [reflexivity | congruence].
Qed.

Lemma first_callable_excludes_none (args : list Value) (k : nat) (f : fn) :
  first_callable args k f -> no_callable_after_first args -> False.
Proof.
  intros (Hk & Hf & _) Hno. specialize (Hno k (Function f) Hk Hf). discriminate.
Qed.

Lemma Arguments_get_lookup (args : list Value) (k : nat) (a : Value) :
  args !! k = Some a -> Arguments_get args (Z.of_nat k) = a.
Proof.
  intros H. unfold Arguments_get.
  destruct (Z.of_nat k <? 0) eqn:E; [apply Z.ltb_lt in E; lia |].
  rewrite Nat2Z.id, H. reflexivity.
Qed.

(** ** Lemmas on [Params] *)

Lemma Params_invalid (args : list Value) (h : Host) (rc : Z) (v : Refs) :
  ValidateArguments args Refs_init = (rc, v) -> rc <> 0 ->
  Params args h = (Undefined, ThrowException (Exception_TypeError (message v)) h).
Proof.
  intros H Hrc. unfold Params. rewrite H.
  destruct (rc =? 0) eqn:E; [apply Z.eqb_eq in E; contradiction | reflexivity].
Qed.

Lemma Params_sync (args : list Value) (h : Host) (v : Refs) :
  ValidateArguments args Refs_init = (0, v) -> callbackPosition v = -1 ->
  Params args h = ParamsSync (maxmem v) (maxmemfrac v) (maxtime v) h.
Proof.
  intros H Hcb. unfold Params. rewrite H, Hcb. reflexivity.
Qed.

Lemma Params_async (args : list Value) (h : Host) (v : Refs) :
  ValidateArguments args Refs_init = (0, v) -> callbackPosition v <> -1 ->
  Params args h =
  (Undefined, queued_host v (Arguments_get args (callbackPosition v)) h).
Proof.
  intros H Hcb. unfold Params. rewrite H. cbn [negb Z.eqb].
  destruct (callbackPosition v =? -1) eqn:E;
    [apply Z.eqb_eq in E; contradiction | reflexivity].
Qed.

Lemma ParamsSync_eq (mm : Z) (mf mt : double) (h : Host) :
  ParamsSync mm mf mt h =
  let '(result, (N, r, p)) := pickparams mm mf mt (0, 0, 0) in
  let h' := set_resolver_calls (resolver_calls h ++ [(mm, mf, mt)]) h in
  if result =? 0 then (createJSONObject N r p, h')
  else (Undefined,
        ThrowException (Exception_TypeError (ScryptErrorDescr result)) h').
Proof.
  unfold ParamsSync, call_pickparams.
  destruct (pickparams mm mf mt (0, 0, 0)) as [result [[N r] p]].
  destruct (result =? 0); reflexivity.
Qed.

(** ** Lemmas on the two steps of the asynchronous path *)

Lemma ParamsWork_some (req b : addr) (baton : Baton.t) (h : Host) :
  requests h !! req = Some (mk_work (Some b)) ->
  batons h !! b = Some baton ->
  ParamsWork req h =
  let '(result, cells) :=
    pickparams (Baton.maxmem baton) (Baton.maxmemfrac baton)
      (Baton.maxtime baton) (Baton.N baton, Baton.r baton, Baton.p baton) in
  Some (mkHost (<[b := Baton.set_outcome result cells baton]> (batons h))
          (requests h) (persistents h) (work_queue h) (exception h)
          (calls h) (fatal h)
          (resolver_calls h ++
             [(Baton.maxmem baton, Baton.maxmemfrac baton,
               Baton.maxtime baton)])).
Proof.
  intros Hreq Hb. unfold ParamsWork. rewrite Hreq. cbn.
  rewrite Hb. cbn. unfold call_pickparams.
  destruct (pickparams _ _ _ _) as [result cells]. reflexivity.
Qed.

Lemma ParamsAsyncAfter_some (req b hd : addr) (baton : Baton.t) (f : fn)
    (h : Host) :
  requests h !! req = Some (mk_work (Some b)) ->
  batons h !! b = Some baton ->
  Baton.callback baton = Some hd ->
  persistents h !! hd = Some (Function f) ->
  ParamsAsyncAfter req h =
  let argv := completion_argv (Baton.result baton) (Baton.N baton)
                (Baton.r baton) (Baton.p baton) in
  Some (mkHost (delete b (batons h)) (delete req (requests h))
          (delete hd (persistents h)) (work_queue h) (exception h)
          (calls h ++ [(f, argv)])
          (fatal h ++ match js_call f argv with
                      | Some e => [e]
                      | None => []
                      end)
          (resolver_calls h)).
Proof.
  intros Hreq Hb Hcb Hhd. unfold ParamsAsyncAfter, completion_argv.
  rewrite Hreq. cbn. rewrite Hb. cbn. rewrite Hcb.
  unfold Call_TryCatch, Function_Call.
  destruct (negb (Baton.result baton =? 0)); cbn; rewrite Hhd; cbn;
    match goal with
    | |- context [js_call f ?a] => destruct (js_call f a)
    end; cbn; unfold FatalException, set_fatal; cbn;
    rewrite ?app_nil_r; reflexivity.
Qed.

Lemma queued_host_lookups (v : Refs) (cb : Value) (h : Host) :
  let h1 := queued_host v cb h in
  requests h1 !! fresh (dom (requests h)) =
    Some (mk_work (Some (fresh (dom (batons h))))) /\
  batons h1 !! fresh (dom (batons h)) = Some (queued_baton v h) /\
  persistents h1 !! fresh (dom (persistents h)) = Some cb.
Proof.
  cbn. rewrite !lookup_insert_eq. auto.
Qed.

Lemma fresh_not_allocated {A : Type} (m : gmap addr A) :
  m !! fresh (dom m) = None.
Proof.
  apply not_elem_of_dom. apply is_fresh.
Qed.

(** The whole asynchronous path after [Params] has queued the request:
    [ParamsWork] and then [ParamsAsyncAfter] on that request both return;
    the host they leave differs from the one before [Params] by the queue
    entry, one call of the resolver, one call of the callable, and the
    exception of the callable given to [node::FatalException], if any. *)
Lemma async_lifecycle (v : Refs) (f : fn) (h : Host) :
  let h1 := queued_host v (Function f) h in
  let req := fresh (dom (requests h)) in
  let '(result, (N, r, p)) :=
    pickparams (maxmem v) (maxmemfrac v) (maxtime v) (0, 0, 0) in
  let argv := completion_argv result N r p in
  let resolved :=
    resolver_calls h ++ [(maxmem v, maxmemfrac v, maxtime v)] in
  exists h2,
    ParamsWork req h1 = Some h2 /\
    requests h2 = requests h1 /\ persistents h2 = persistents h1 /\
    work_queue h2 = work_queue h1 /\ exception h2 = exception h /\
    calls h2 = calls h /\ fatal h2 = fatal h /\
    resolver_calls h2 = resolved /\
    ParamsAsyncAfter req h2 =
      Some (mkHost (batons h) (requests h) (persistents h)
              (work_queue h ++ [req]) (exception h)
              (calls h ++ [(f, argv)])
              (fatal h ++ match js_call f argv with
                          | Some e => [e]
                          | None => []
                          end)
              resolved).
Proof.
  intros h1 req.
  destruct (queued_host_lookups v (Function f) h) as (Hreq & Hb & Hhd).
  fold h1 in Hreq, Hb, Hhd. fold req in Hreq.
  pose proof (ParamsWork_some _ _ _ _ Hreq Hb) as Hwork.
  cbn [queued_baton Baton.maxmem Baton.maxmemfrac Baton.maxtime
       Baton.N Baton.r Baton.p] in Hwork.
  destruct (pickparams (maxmem v) (maxmemfrac v) (maxtime v) (0, 0, 0))
    as [result [[N r] p]] eqn:Hpick.
  intros argv resolved.
  eexists. split; [exact Hwork |]. cbn.
  repeat (split; [reflexivity |]).
  erewrite ParamsAsyncAfter_some; cycle 1.
  - cbn. apply lookup_insert_eq.
  - cbn. apply lookup_insert_eq.
  - reflexivity.
  - cbn. apply lookup_insert_eq.
  - cbn. f_equal. f_equal.
    + rewrite !delete_insert_eq. apply delete_id, fresh_not_allocated.
    + rewrite !delete_insert_eq. apply delete_id, fresh_not_allocated.
    + rewrite !delete_insert_eq. apply delete_id, fresh_not_allocated.
Qed.

Lemma loop_beyond_fields (rest : list Value) :
  forall (i : nat) (v : Refs) (rc : Z) (v' : Refs),
    (3 <= i)%nat -> ValidateArguments_loop i rest v = (rc, v') ->
    rc = 0 /\ maxmem v' = maxmem v /\ maxmemfrac v' = maxmemfrac v /\
    maxtime v' = maxtime v.
Proof.
  induction rest as [| a rest IH]; intros i v rc v' Hi H; simpl in H.
  - inversion H; subst. auto.
  - destruct ((0 <? i)%nat && IsFunction a).
    + inversion H; subst. auto.
    + destruct i as [| [| [| i]]]; try lia. cbn in H.
      apply IH in H; [exact H | lia].
Qed.

Lemma ValidateArguments_cons (a0 : Value) (rest : list Value) (v : Refs) :
  ValidateArguments (a0 :: rest) v =
  if IsFunction a0 then
    (1, set_message
          "Wrong number of arguments: At least one argument is needed before the callback - the maxtime"
          v)
  else ValidateArguments_loop 0 (a0 :: rest) v.
Proof. reflexivity. Qed.

(** The closed form of a validated request. *)
Lemma validated_request (args : list Value) (v : Refs) :
  ValidateArguments args Refs_init = (0, v) ->
  exists t, args !! 0%nat = Some (Number t) /\ double_le_zero t = false /\
            maxtime v = t /\
            maxmemfrac v = maxmemfrac_of args /\ maxmem v = maxmem_of args.
Proof.
  intros H. unfold maxmemfrac_of, maxmem_of.
  destruct args as [| a0 rest]; [discriminate |].
  rewrite ValidateArguments_cons in H.
  destruct a0 as [| | ? | t | ? | ? | ? | ? | ?]; try discriminate.
  cbn in H.
  destruct (double_le_zero t) eqn:Ht; [discriminate |].
  exists t. split; [reflexivity |]. split; [exact Ht |].
  destruct rest as [| a1 rest]; cbn in H |- *.
  { inversion H; subst. cbn. auto. }
  destruct a1 as [| | ? | d1 | ? | ? | ? | ? | ?]; try discriminate;
    cbn in H.
  2:{ inversion H; subst. cbn. auto. }
  destruct (double_le_zero d1) eqn:E;
    (destruct rest as [| a2 rest]; cbn in H |- *;
     [inversion H; subst; cbn; auto |]);
    (destruct a2 as [| | ? | d2 | ? | ? | ? | ? | ?]; try discriminate;
     cbn in H;
     [| inversion H; subst; cbn; auto ]);
    destruct (double_to_int d2 <? 0) eqn:E1;
    apply loop_beyond_fields in H; try lia;
    destruct H as (_ & Hmm & Hmf & Hmt); rewrite Hmm, Hmf, Hmt; cbn; auto.
Qed.

Lemma validation_failure_detected (args : list Value) :
  validation_failure args ->
  exists v, ValidateArguments args Refs_init = (1, v).
Proof.
  intros [-> | [[f Hf] | [(i & a & Hi & Ha & Hnum & Hno) | (t & Ht & Hle)]]].
  - eexists. reflexivity.
  - destruct args as [| a0 rest]; [discriminate |].
    cbn in Hf. inversion Hf; subst. eexists. reflexivity.
  - destruct args as [| a0 rest]; [rewrite lookup_nil in Ha; discriminate |].
    rewrite ValidateArguments_cons.
    destruct (IsFunction a0) eqn:Hf0; [eexists; reflexivity |].
    destruct a0 as [| | ? | t | ? | ? | ? | ? | ?];
      try discriminate; try (eexists; reflexivity).
    cbn. destruct (double_le_zero t); [eexists; reflexivity |].
    destruct i as [| i]; [cbn in Ha; inversion Ha; subst; discriminate |].
    destruct rest as [| a1 rest]; [discriminate |].
    assert (Hf1 : IsFunction a1 = false) by (apply (Hno 1%nat); [lia | reflexivity]).
    cbn. rewrite Hf1.
    destruct a1 as [| | ? | d1 | ? | ? | ? | ? | ?];
      try discriminate; try (eexists; reflexivity).
    destruct i as [| i]; [cbn in Ha; inversion Ha; subst; discriminate |].
    destruct i as [| i]; [| lia].
    destruct rest as [| a2 rest]; [discriminate |].
    cbn in Ha. inversion Ha; subst a2.
    assert (Hf2 : IsFunction a = false) by (apply (Hno 2%nat); [lia | reflexivity]).
    cbn. destruct (double_le_zero d1); cbn; rewrite Hf2;
      destruct a; try discriminate; eexists; reflexivity.
  - destruct args as [| a0 rest]; [discriminate |].
    cbn in Ht. inversion Ht; subst.
    rewrite ValidateArguments_cons. cbn. rewrite Hle. eexists. reflexivity.
Qed.

(** Conversely, [ValidateArguments] fails on the listed failures only. *)
Lemma validation_failure_complete (args : list Value) (rc : Z) (v : Refs) :
  ValidateArguments args Refs_init = (rc, v) -> rc <> 0 ->
  validation_failure args.
Proof.
  intros H Hrc. unfold validation_failure.
  destruct args as [| a0 rest]; [left; reflexivity | right].
  rewrite ValidateArguments_cons in H.
  destruct a0 as [| | ? | t | ? | f0 | ? | ? | ?];
    try (right; left; exists 0%nat; eexists;
         split; [lia |]; split; [reflexivity |]; split; [reflexivity |];
         intros; lia).
  cbn in H.
  destruct (double_le_zero t) eqn:Ht;
    [right; right; exists t; split; [reflexivity | exact Ht] |].
  right; left.
  destruct rest as [| a1 rest]; [inversion H; subst; congruence |].
  cbn in H.
  destruct a1 as [| | ? | d1 | ? | f1 | ? | ? | ?];
    try (exists 1%nat; eexists;
         split; [lia |]; split; [reflexivity |]; split; [reflexivity |];
         intros j' b' Hj Hb; assert (j' = 1%nat) as -> by lia;
         cbn in Hb; inversion Hb; reflexivity).
  2:{ inversion H; subst; congruence. }
  cbn in H.
  destruct (double_le_zero d1);
    (destruct rest as [| a2 rest]; [inversion H; subst; congruence |]);
    cbn in H;
    (destruct a2 as [| | ? | d2 | ? | f2 | ? | ? | ?];
     try (exists 2%nat; eexists;
          split; [lia |]; split; [reflexivity |]; split; [reflexivity |];
          intros j' b' Hj Hb;
          assert (j' = 1%nat \/ j' = 2%nat) as [-> | ->] by lia;
          cbn in Hb; inversion Hb; reflexivity);
     [| inversion H; subst; congruence]);
    cbn in H; destruct (double_to_int d2 <? 0);
    apply loop_beyond_fields in H; try lia; destruct H; contradiction.
Qed.

(** ** Validation of a synchronous signature *)

Lemma ValidateArguments_sync_ok (args : list Value) (t : double) :
  args !! 0%nat = Some (Number t) -> double_pos t = true ->
  (forall a, args !! 1%nat = Some a -> IsNumber a = true) ->
  (forall a, args !! 2%nat = Some a -> IsNumber a = true) ->
  Forall (fun a => IsFunction a = false) args ->
  exists v, ValidateArguments args Refs_init = (0, v) /\
            callbackPosition v = -1 /\ maxtime v = t.
Proof.
  intros H0 Ht H1 H2 Hall.
  destruct args as [| a0 rest]; [discriminate |].
  cbn in H0. inversion H0; subst a0. clear H0.
  apply double_pos_not_le_zero in Ht.
  unfold ValidateArguments. cbn. rewrite Ht.
  destruct rest as [| a1 rest]; [eexists; cbn; eauto |].
  specialize (H1 a1 eq_refl). destruct a1; try discriminate. clear H1.
  cbn.
  destruct rest as [| a2 rest].
  { destruct (double_le_zero d); eexists; cbn; eauto. }
  specialize (H2 a2 eq_refl). destruct a2; try discriminate. clear H2.
  assert (Hrest : Forall (fun a => IsFunction a = false) rest).
  { inversion Hall as [| ? ? _ Hall1]; subst.
    inversion Hall1 as [| ? ? _ Hall2]; subst.
    inversion Hall2; subst. assumption. }
  cbn.
  destruct (double_le_zero d); destruct (double_to_int d0 <? 0);
    rewrite (loop_beyond_no_callable rest 3) by (auto; lia);
    eexists; cbn; eauto.
Qed.

(** The resolver is called with the validated variables: by [Params] itself
    on the synchronous path, by [ParamsWork] on the queued request on the
    asynchronous one. *)
Lemma resolver_receives_validated (args : list Value) (v : Refs) (h : Host) :
  ValidateArguments args Refs_init = (0, v) ->
  (callbackPosition v = -1 ->
   resolver_calls (snd (Params args h)) =
   resolver_calls h ++ [(maxmem v, maxmemfrac v, maxtime v)]) /\
  (callbackPosition v <> -1 ->
   exists req h2,
     work_queue (snd (Params args h)) = work_queue h ++ [req] /\
     ParamsWork req (snd (Params args h)) = Some h2 /\
     resolver_calls h2 =
     resolver_calls h ++ [(maxmem v, maxmemfrac v, maxtime v)]).
Proof.
  intros Hv. split.
  - intros Hcb. rewrite (Params_sync args h v Hv Hcb), ParamsSync_eq.
    destruct (pickparams _ _ _ _) as [code [[N r] p]].
    destruct (code =? 0); reflexivity.
  - intros Hcb. rewrite (Params_async args h v Hv Hcb).
    destruct (ValidateArguments_classify args v Hv)
      as [[Hcb' _] | (k & f & (Hk & Hf & _) & Hpos)]; [contradiction |].
    rewrite Hpos, (Arguments_get_lookup args k _ Hf).
    destruct (queued_host_lookups v (Function f) h) as (Hreq & Hb & _).
    pose proof (ParamsWork_some _ _ _ _ Hreq Hb) as Hwork.
    cbn [queued_baton Baton.maxmem Baton.maxmemfrac Baton.maxtime
         Baton.N Baton.r Baton.p] in Hwork.
    destruct (pickparams (maxmem v) (maxmemfrac v) (maxtime v) (0, 0, 0))
      as [code cells].
    eexists (fresh (dom (requests h))), _. cbn [snd].
    split; [reflexivity |]. split; [exact Hwork | reflexivity].
Qed.

(** ** Theorems *)

Lemma int32_t_of_uint32_t_small (u : Z) :
  0 <= u <= INT_MAX -> int32_t_of_uint32_t u = u.
Proof.
  unfold int32_t_of_uint32_t, INT_MAX. intros Hu.
  rewrite Z.mod_small by lia. lia.
Qed.

(** The object of a triple has the three properties "N", "r", "p", in that
    order, and each holds the integer it was made from when that integer
    fits an [int32_t]. *)
Lemma createJSONObject_values (N r p : Z) :
  exists vN vr vp,
    createJSONObject N r p = Object [("N", vN); ("r", vr); ("p", vp)] /\
    (INT_MIN <= N <= INT_MAX -> Integer_Value vN = Some N) /\
    (0 <= r <= INT_MAX -> Integer_Value vr = Some r) /\
    (0 <= p <= INT_MAX -> Integer_Value vp = Some p).
Proof.
  do 3 eexists. split; [reflexivity |].
  split; [apply Integer_New_Value |].
  split; intros Hu; rewrite (int32_t_of_uint32_t_small _ Hu);
    apply Integer_New_Value; unfold INT_MIN; lia.
Qed.

(** C1 (amended). A call whose first argument is a number greater than 0,
    whose second and third arguments, when present, are numbers, and which
    holds no function, is served before [Params] returns: nothing is
    queued, the resolver is called once, with the validated [maxmem],
    [maxmemfrac] and [maxtime]; when it answers 0 the call returns an
    object with the properties "N", "r", "p", each of which holds the
    resolver's value whenever that value fits the [int32_t] that
    [Integer::New] takes ([r] and [p] below 2^31); when it answers another
    code the call returns with the TypeError of that code's description
    scheduled. *)
Theorem sync_call_returns_resolver_output
    (args : list Value) (t : double) (h : Host) :
  args !! 0%nat = Some (Number t) -> double_pos t = true ->
  (forall a, args !! 1%nat = Some a -> IsNumber a = true) ->
  (forall a, args !! 2%nat = Some a -> IsNumber a = true) ->
  Forall (fun a => IsFunction a = false) args ->
  exists v,
    ValidateArguments args Refs_init = (0, v) /\
    callbackPosition v = -1 /\ maxtime v = t /\
    let '(code, (N, r, p)) :=
      pickparams (maxmem v) (maxmemfrac v) (maxtime v) (0, 0, 0) in
    let h' :=
      set_resolver_calls
        (resolver_calls h ++ [(maxmem v, maxmemfrac v, maxtime v)]) h in
    if code =? 0 then
      exists vN vr vp,
        Params args h = (Object [("N", vN); ("r", vr); ("p", vp)], h') /\
        (INT_MIN <= N <= INT_MAX -> Integer_Value vN = Some N) /\
        (0 <= r <= INT_MAX -> Integer_Value vr = Some r) /\
        (0 <= p <= INT_MAX -> Integer_Value vp = Some p)
    else
      Params args h =
      (Undefined,
       ThrowException (Exception_TypeError (ScryptErrorDescr code)) h').
Proof.
  intros H0 Ht H1 H2 Hall.
  destruct (ValidateArguments_sync_ok args t H0 Ht H1 H2 Hall)
    as (v & Hv & Hcb & Hmt).
  exists v. repeat (split; [assumption |]).
  rewrite (Params_sync args h v Hv Hcb), ParamsSync_eq.
  destruct (pickparams _ _ _ _) as [code [[N r] p]].
  cbv zeta. destruct (code =? 0); [| reflexivity].
  destruct (createJSONObject_values N r p) as (vN & vr & vp & -> & Hvals).
  exists vN, vr, vp. split; [reflexivity | exact Hvals].
Qed.

(** C2 (amended). For a validated argument list with a function at some
    index greater than 0, [Params] returns [Undefined] with one request
    queued and no call made; [ParamsWork] and then [ParamsAsyncAfter] on
    that request both return, and all they add to the calls of JavaScript
    functions is one call of the first such function: when the resolver
    answered 0, with [null] and an object with the properties "N", "r",
    "p", each of which holds the resolver's value whenever that value fits
    the [int32_t] that [Integer::New] takes ([r] and [p] below 2^31);
    otherwise with the Error of the code's description as only argument. *)
Theorem completion_invokes_continuation_once
    (args : list Value) (v : Refs) (j : nat) (g : fn) (h : Host) :
  ValidateArguments args Refs_init = (0, v) ->
  (0 < j)%nat -> args !! j = Some (Function g) ->
  exists k f req h1 h2 h3,
    first_callable args k f /\
    Params args h = (Undefined, h1) /\
    work_queue h1 = work_queue h ++ [req] /\ calls h1 = calls h /\
    ParamsWork req h1 = Some h2 /\ calls h2 = calls h /\
    ParamsAsyncAfter req h2 = Some h3 /\
    let '(code, (N, r, p)) :=
      pickparams (maxmem v) (maxmemfrac v) (maxtime v) (0, 0, 0) in
    if code =? 0 then
      exists vN vr vp,
        calls h3 =
          calls h ++ [(f, [Null; Object [("N", vN); ("r", vr); ("p", vp)]])]
        /\
        (INT_MIN <= N <= INT_MAX -> Integer_Value vN = Some N) /\
        (0 <= r <= INT_MAX -> Integer_Value vr = Some r) /\
        (0 <= p <= INT_MAX -> Integer_Value vp = Some p)
    else
      calls h3 = calls h ++ [(f, [Exception_Error (ScryptErrorDescr code)])].
Proof.
  intros Hv Hj Hg.
  destruct (ValidateArguments_classify args v Hv)
    as [[_ Hno] | (k & f & Hfirst & Hcb)].
  { specialize (Hno j (Function g) Hj Hg). discriminate. }
  assert (Hasync : callbackPosition v <> -1) by lia.
  pose proof (Params_async args h v Hv Hasync) as HP.
  destruct Hfirst as (Hk & Hf & Hbefore).
  rewrite Hcb, (Arguments_get_lookup args k _ Hf) in HP.
  pose proof (async_lifecycle v f h) as Hlife. cbv zeta in Hlife.
  destruct (pickparams (maxmem v) (maxmemfrac v) (maxtime v) (0, 0, 0))
    as [code [[N r] p]].
  destruct Hlife as (h2 & Hwork & _ & _ & _ & _ & Hcalls2 & _ & _ & Hafter).
  exists k, f, (fresh (dom (requests h))). do 3 eexists.
  split; [exact (conj Hk (conj Hf Hbefore)) |].
  split; [exact HP |].
  split; [reflexivity |]. split; [reflexivity |].
  split; [exact Hwork |]. split; [exact Hcalls2 |].
  split; [exact Hafter |].
  cbn. unfold completion_argv. destruct (code =? 0); [| reflexivity].
  destruct (createJSONObject_values N r p) as (vN & vr & vp & -> & Hvals).
  exists vN, vr, vp. split; [reflexivity | exact Hvals].
Qed.

Lemma ValidateArguments_ignores_after_callable
    (pre : list Value) (f : fn) (post post' : list Value) (v : Refs) :
  pre <> [] ->
  ValidateArguments (pre ++ Function f :: post) v =
  ValidateArguments (pre ++ Function f :: post') v.
Proof.
  intros Hpre. destruct pre as [| a pre]; [contradiction |].
  unfold ValidateArguments. cbn [app length Nat.eqb Nat.ltb Nat.leb andb].
  change (Arguments_get (a :: pre ++ Function f :: post) 0) with a.
  change (Arguments_get (a :: pre ++ Function f :: post') 0) with a.
  destruct (IsFunction a); [reflexivity |].
  apply (loop_ignores_after_callable (a :: pre)). cbn. lia.
Qed.

(** C3 (amended). For every argument list that passes validation, exactly
    one of two cases holds.  Either no index greater than 0 holds a
    function: then [callbackPosition] is left at -1 and [Params] is
    [ParamsSync] on the validated values.  Or there is a first index [k]
    greater than 0 holding a function [f]: then [callbackPosition] is [k],
    [Params] returns [Undefined] with the request for [f] queued, and the
    arguments after index [k] are ignored: replacing them by any others
    changes neither the outcome of the validation nor that of [Params]. *)
Theorem classification_of_validated_arguments
    (args : list Value) (v : Refs) (h : Host) :
  ValidateArguments args Refs_init = (0, v) ->
  ((no_callable_after_first args /\ callbackPosition v = -1 /\
    Params args h = ParamsSync (maxmem v) (maxmemfrac v) (maxtime v) h)
   \/
   (exists k f,
      first_callable args k f /\ callbackPosition v = Z.of_nat k /\
      Params args h = (Undefined, queued_host v (Function f) h) /\
      forall post',
        ValidateArguments (take k args ++ Function f :: post') Refs_init
          = (0, v) /\
        Params (take k args ++ Function f :: post') h = Params args h))
  /\
  ~ (no_callable_after_first args /\ exists k f, first_callable args k f).
Proof.
  intros Hv. split.
  - destruct (ValidateArguments_classify args v Hv)
      as [[Hcb Hno] | (k & f & Hfirst & Hcb)].
    + left. split; [exact Hno |]. split; [exact Hcb |].
      apply Params_sync; assumption.
    + right. exists k, f.
      assert (Hasync : callbackPosition v <> -1) by lia.
      pose proof (Params_async args h v Hv Hasync) as HP.
      pose proof Hfirst as (Hk & Hf & _).
      rewrite Hcb, (Arguments_get_lookup args k _ Hf) in HP.
      split; [exact Hfirst |]. split; [exact Hcb |]. split; [exact HP |].
      intros post'.
      assert (Hpre : take k args <> []).
      { destruct args; [rewrite lookup_nil in Hf; discriminate |].
        destruct k; [lia | discriminate]. }
      assert (Hv' : ValidateArguments (take k args ++ Function f :: post')
                      Refs_init = (0, v)).
      { rewrite (ValidateArguments_ignores_after_callable
                   _ f post' (drop (S k) args) _ Hpre).
        rewrite (take_drop_middle args k (Function f) Hf). exact Hv. }
      split; [exact Hv' |].
      rewrite HP, (Params_async _ h v Hv' Hasync), Hcb.
      rewrite (Arguments_get_lookup _ k (Function f)); [reflexivity |].
      assert (Hlen : length (take k args) = k).
      { apply length_take_le. apply lookup_lt_Some in Hf. lia. }
      rewrite lookup_app_r by lia. rewrite Hlen, Nat.sub_diag. reflexivity.
  - intros (Hno & k & f & Hfirst).
    exact (first_callable_excludes_none args k f Hfirst Hno).
Qed.

(** C4. Each validation failure (no argument; a function as first argument;
    a non-number at index 0, 1 or 2 met before any function; a first
    argument [<= 0]) makes [ValidateArguments] return 1, and [Params] then
    returns [Undefined] with a TypeError scheduled for the caller and
    nothing else changed in the host: the resolver has not been called,
    nothing has been allocated or queued, no function has been called.
    The same holds for a function at a later index (the asynchronous
    signature), since the condition does not look at what follows. *)
Theorem validation_failure_thrown_before_resolver
    (args : list Value) (h : Host) :
  validation_failure args ->
  exists v,
    ValidateArguments args Refs_init = (1, v) /\
    Params args h =
      (Undefined, ThrowException (Exception_TypeError (message v)) h) /\
    let h' := snd (Params args h) in
    exception h' = Some (Exception_TypeError (message v)) /\
    resolver_calls h' = resolver_calls h /\
    work_queue h' = work_queue h /\
    batons h' = batons h /\ requests h' = requests h /\
    persistents h' = persistents h /\
    calls h' = calls h /\ fatal h' = fatal h.
Proof.
  intros Hfail.
  destruct (validation_failure_detected args Hfail) as [v Hv].
  exists v. split; [exact Hv |].
  assert (HP := Params_invalid args h 1 v Hv ltac:(lia)).
  split; [exact HP |].
  rewrite HP. cbn. repeat split; reflexivity.
Qed.

(** C5. For a validated call: when [maxmemfrac] is absent (no second
    argument, or the callable in its place) or is a number [<= 0],
    [maxmemfrac] is 0.5; when [maxmem] is absent (no third argument, or
    the callable at index 1 or 2) or is a negative number, [maxmem] is 0;
    a [maxmemfrac] that is not [<= 0] is kept.  These are the values the
    resolver is called with, on the synchronous path by [Params] itself
    and on the asynchronous path by [ParamsWork] on the queued request,
    together with the validated [maxtime]. *)
Theorem defaults_applied (args : list Value) (v : Refs) (h : Host) :
  ValidateArguments args Refs_init = (0, v) ->
  ((args !! 1%nat = None \/ (exists f, args !! 1%nat = Some (Function f)) \/
    (exists d, args !! 1%nat = Some (Number d) /\ double_le_zero d = true)) ->
   maxmemfrac v = maxmemfrac_default) /\
  (forall d, args !! 1%nat = Some (Number d) -> double_le_zero d = false ->
             maxmemfrac v = d) /\
  ((args !! 2%nat = None \/ (exists f, args !! 1%nat = Some (Function f)) \/
    (exists f, args !! 2%nat = Some (Function f)) \/
    (exists d, args !! 2%nat = Some (Number d) /\ double_neg d = true)) ->
   maxmem v = maxmem_default) /\
  (exists t, args !! 0%nat = Some (Number t) /\ maxtime v = t) /\
  (callbackPosition v = -1 ->
   resolver_calls (snd (Params args h)) =
   resolver_calls h ++ [(maxmem v, maxmemfrac v, maxtime v)]) /\
  (callbackPosition v <> -1 ->
   exists req h2,
     work_queue (snd (Params args h)) = work_queue h ++ [req] /\
     ParamsWork req (snd (Params args h)) = Some h2 /\
     resolver_calls h2 =
     resolver_calls h ++ [(maxmem v, maxmemfrac v, maxtime v)]).
Proof.
  intros Hv.
  destruct (validated_request args v Hv) as (t & H0 & Ht & Hmt & Hmf & Hmm).
  unfold maxmemfrac_of in Hmf. unfold maxmem_of in Hmm.
  split; [| split; [| split; [| split; [| split]]]].
  - intros [E | [[f E] | (d & E & Hd)]]; rewrite E in Hmf; [easy | easy |].
    rewrite Hd in Hmf. exact Hmf.
  - intros d E Hd. rewrite E, Hd in Hmf. exact Hmf.
  - intros [E | [[f E] | [[f E] | (d & E & Hd)]]].
    + rewrite E in Hmm. destruct (args !! 1%nat) as [[] |]; exact Hmm.
    + rewrite E in Hmm. exact Hmm.
    + rewrite E in Hmm. destruct (args !! 1%nat) as [[] |]; exact Hmm.
    + rewrite E, (double_neg_maxmem d Hd) in Hmm.
      destruct (args !! 1%nat) as [[] |]; exact Hmm.
  - exists t. auto.
  - apply (resolver_receives_validated args v h Hv).
  - apply (resolver_receives_validated args v h Hv).
Qed.

(** C6. A call with a number greater than 0, two more numbers, and then
    any further arguments none of which is a function, is validated as
    synchronous, and the further arguments change nothing: validation
    leaves the very variables it leaves on the first three arguments alone,
    and [Params] does the same as on the first three alone. *)
Theorem trailing_arguments_ignored
    (t f m : double) (extras : list Value) (h : Host) :
  double_pos t = true ->
  Forall (fun a => IsFunction a = false) extras ->
  let args3 := [Number t; Number f; Number m] in
  exists v,
    ValidateArguments (args3 ++ extras) Refs_init = (0, v) /\
    callbackPosition v = -1 /\
    ValidateArguments args3 Refs_init = (0, v) /\
    Params (args3 ++ extras) h = Params args3 h.
Proof.
  intros Ht Hextras args3.
  apply double_pos_not_le_zero in Ht.
  assert (H3 : exists v, ValidateArguments args3 Refs_init = (0, v) /\
                         callbackPosition v = -1 /\
                         ValidateArguments_loop 0 args3 Refs_init = (0, v)).
  { unfold args3. rewrite ValidateArguments_cons. cbn. rewrite Ht.
    destruct (double_le_zero f); destruct (double_to_int m <? 0);
      eexists; cbn; eauto. }
  destruct H3 as (v & Hv3 & Hcb & Hloop3).
  assert (Hv : ValidateArguments (args3 ++ extras) Refs_init = (0, v)).
  { unfold args3 in *. cbn [app]. rewrite ValidateArguments_cons.
    cbn in Hloop3 |- *. rewrite Ht in Hloop3 |- *.
    destruct (double_le_zero f); destruct (double_to_int m <? 0);
      rewrite (loop_beyond_no_callable extras 3) by (auto; lia);
      exact Hloop3. }
  exists v. split; [exact Hv |]. split; [exact Hcb |]. split; [exact Hv3 |].
  rewrite (Params_sync _ h v Hv Hcb), (Params_sync _ h v Hv3 Hcb).
  reflexivity.
Qed.

(** C7. On a request whose baton holds a live handle on a function,
    [ParamsAsyncAfter] returns, whatever the result code and whether the
    function returns or throws; afterwards the persistent handle, the baton
    and the request are gone, every other handle, baton and request is as
    before, and an exception thrown by the function has been given to
    [node::FatalException] (nothing is given to it when the function
    returns). *)
Theorem completion_releases_work_unit
    (req b hd : addr) (baton : Baton.t) (f : fn) (h : Host) :
  requests h !! req = Some (mk_work (Some b)) ->
  batons h !! b = Some baton ->
  Baton.callback baton = Some hd ->
  persistents h !! hd = Some (Function f) ->
  let argv := completion_argv (Baton.result baton) (Baton.N baton)
                (Baton.r baton) (Baton.p baton) in
  exists h',
    ParamsAsyncAfter req h = Some h' /\
    persistents h' !! hd = None /\ batons h' !! b = None /\
    requests h' !! req = None /\
    (forall a, a <> hd -> persistents h' !! a = persistents h !! a) /\
    (forall a, a <> b -> batons h' !! a = batons h !! a) /\
    (forall a, a <> req -> requests h' !! a = requests h !! a) /\
    calls h' = calls h ++ [(f, argv)] /\
    (forall e, js_call f argv = Some e -> fatal h' = fatal h ++ [e]) /\
    (js_call f argv = None -> fatal h' = fatal h).
Proof.
  intros Hreq Hb Hcb Hhd argv.
  eexists. split; [apply (ParamsAsyncAfter_some req b hd baton f h); assumption |].
  cbn. fold argv.
  split; [apply lookup_delete_eq |].
  split; [apply lookup_delete_eq |].
  split; [apply lookup_delete_eq |].
  split; [intros a Ha; apply lookup_delete_ne; congruence |].
  split; [intros a Ha; apply lookup_delete_ne; congruence |].
  split; [intros a Ha; apply lookup_delete_ne; congruence |].
  split; [reflexivity |].
  split.
  - intros e He. rewrite He. reflexivity.
  - intros He. rewrite He. apply app_nil_r.
Qed.

(** C8 (amended). [createJSONObject] on [N], [r], [p] is an object with
    the three properties "N", "r", "p", in that order, and depends on
    nothing else; each property holds the given integer whenever that
    integer fits the [int32_t] that [Integer::New] takes (any [int] [N];
    [r] and [p] below 2^31).  What [ParamsSync] returns when the resolver
    answers 0, and the second argument [ParamsAsyncAfter] calls the
    callable with when the result code is 0, are both that object. *)
Theorem result_encoder (N r p : Z) :
  (exists vN vr vp,
     createJSONObject N r p = Object [("N", vN); ("r", vr); ("p", vp)] /\
     (INT_MIN <= N <= INT_MAX -> Integer_Value vN = Some N) /\
     (0 <= r <= INT_MAX -> Integer_Value vr = Some r) /\
     (0 <= p <= INT_MAX -> Integer_Value vp = Some p)) /\
  (forall mm mf mt h,
     pickparams mm mf mt (0, 0, 0) = (0, (N, r, p)) ->
     fst (ParamsSync mm mf mt h) = createJSONObject N r p) /\
  (forall req b hd baton f h,
     requests h !! req = Some (mk_work (Some b)) ->
     batons h !! b = Some baton ->
     Baton.callback baton = Some hd ->
     persistents h !! hd = Some (Function f) ->
     Baton.result baton = 0 ->
     Baton.N baton = N -> Baton.r baton = r -> Baton.p baton = p ->
     exists h',
       ParamsAsyncAfter req h = Some h' /\
       calls h' = calls h ++ [(f, [Null; createJSONObject N r p])]).
Proof.
  split; [apply createJSONObject_values |]. split.
  - intros mm mf mt h Hpick. rewrite ParamsSync_eq, Hpick. reflexivity.
  - intros req b hd baton f h Hreq Hb Hcb Hhd Hres HN Hr Hp.
    eexists.
    split; [apply (ParamsAsyncAfter_some req b hd baton f h); assumption |].
    cbn. unfold completion_argv. rewrite Hres, HN, Hr, Hp. reflexivity.
Qed.

(** C9. On a request with its baton, [ParamsWork] returns; the baton then
    holds what [pickparams] answered, from the baton's own [maxmem],
    [maxmemfrac], [maxtime], in [result], [N], [r], [p], and its other
    members, the handle on the callable among them, are as before; every
    other baton, the requests, the persistent handles, the queue, the
    scheduled exception, the calls of functions and the fatal exceptions
    are as before; and the step goes the same way whatever handle the baton
    holds. *)
Theorem work_step_writes_outcome_only
    (req b : addr) (baton : Baton.t) (h : Host) :
  requests h !! req = Some (mk_work (Some b)) ->
  batons h !! b = Some baton ->
  exists h' baton',
    ParamsWork req h = Some h' /\
    batons h' !! b = Some baton' /\
    (Baton.result baton', (Baton.N baton', Baton.r baton', Baton.p baton')) =
      pickparams (Baton.maxmem baton) (Baton.maxmemfrac baton)
        (Baton.maxtime baton)
        (Baton.N baton, Baton.r baton, Baton.p baton) /\
    Baton.callback baton' = Baton.callback baton /\
    Baton.maxmem baton' = Baton.maxmem baton /\
    Baton.maxmemfrac baton' = Baton.maxmemfrac baton /\
    Baton.maxtime baton' = Baton.maxtime baton /\
    (forall a, a <> b -> batons h' !! a = batons h !! a) /\
    requests h' = requests h /\ persistents h' = persistents h /\
    work_queue h' = work_queue h /\ exception h' = exception h /\
    calls h' = calls h /\ fatal h' = fatal h /\
    (forall hd',
       ParamsWork req
         (set_batons (<[b := Baton.set_callback hd' baton]> (batons h)) h) =
       Some (set_batons
               (<[b := Baton.set_callback hd' baton']> (batons h')) h')).
Proof.
  intros Hreq Hb.
  pose proof (ParamsWork_some req b baton h Hreq Hb) as Hwork.
  assert (Halt : forall hd',
            ParamsWork req
              (set_batons (<[b := Baton.set_callback hd' baton]> (batons h)) h)
            = _) by
    (intros hd';
     apply (ParamsWork_some req b (Baton.set_callback hd' baton));
     [exact Hreq | apply lookup_insert_eq]).
  cbn [Baton.maxmem Baton.maxmemfrac Baton.maxtime Baton.N Baton.r Baton.p
       Baton.set_callback] in Halt.
  destruct (pickparams (Baton.maxmem baton) (Baton.maxmemfrac baton)
              (Baton.maxtime baton)
              (Baton.N baton, Baton.r baton, Baton.p baton))
    as [result [[N r] p]] eqn:Hpick.
  do 2 eexists. split; [exact Hwork |]. cbn.
  split; [apply lookup_insert_eq |]. cbn.
  repeat (split; [reflexivity |]).
  split; [intros a Ha; apply lookup_insert_ne; congruence |].
  repeat (split; [reflexivity |]).
  intros hd'. rewrite Halt. cbn. unfold set_batons. cbn.
  rewrite !insert_insert_eq. reflexivity.
Qed.

Lemma double_trunc_finite (s : bool) (m : positive) (e : Z) :
  double_trunc (S754_finite s m e) =
  Some ((if s then -1 else 1) *
        (if e <? 0 then Z.pos m / 2 ^ (- e) else Z.pos m * 2 ^ e)).
Proof.
  cbn [double_trunc]. f_equal.
  destruct (e <? 0) eqn:E.
  - apply Z.ltb_lt in E. rewrite Z.shiftl_div_pow2 by lia.
    destruct s; lia.
  - apply Z.ltb_ge in E. rewrite Z.shiftl_mul_pow2 by lia.
    destruct s; lia.
Qed.

(** C10. When the third argument of a validated call is the number [d]
    (the second being a number too), [maxmem] is what remains of [d] after
    its passage through an [int]: the [int], or 0 when the [int] is
    negative, hence a value between 0 and [INT_MAX].  The [int] is [d]
    with its fractional part dropped (the mantissa shifted by the exponent,
    with the sign of [d]) when that fits; so [maxmem] is that integer
    exactly when it lies between 0 and [INT_MAX], and in no other case: a
    [d] of 2^31 or more, an infinity or NaN never reaches the resolver as
    it is (here it arrives as 0).  The resolver is called with this
    [maxmem]. *)
Theorem maxmem_narrowed_through_int
    (args : list Value) (v : Refs) (f d : double) (h : Host) :
  ValidateArguments args Refs_init = (0, v) ->
  args !! 1%nat = Some (Number f) ->
  args !! 2%nat = Some (Number d) ->
  maxmem v = (if double_to_int d <? 0 then 0 else double_to_int d) /\
  0 <= maxmem v <= INT_MAX /\
  (forall s m e, d = S754_finite s m e ->
     double_trunc d =
     Some ((if s then -1 else 1) *
           (if e <? 0 then Z.pos m / 2 ^ (- e) else Z.pos m * 2 ^ e))) /\
  (forall z, double_trunc d = Some z ->
             (maxmem v = z <-> 0 <= z <= INT_MAX)) /\
  (forall z, double_trunc d = Some z -> INT_MAX < z -> maxmem v = 0) /\
  (double_trunc d = None -> maxmem v = 0) /\
  (callbackPosition v = -1 ->
   resolver_calls (snd (Params args h)) =
   resolver_calls h ++ [(maxmem v, maxmemfrac v, maxtime v)]) /\
  (callbackPosition v <> -1 ->
   exists req h2,
     work_queue (snd (Params args h)) = work_queue h ++ [req] /\
     ParamsWork req (snd (Params args h)) = Some h2 /\
     resolver_calls h2 =
     resolver_calls h ++ [(maxmem v, maxmemfrac v, maxtime v)]).
Proof.
  intros Hv H1 H2.
  destruct (validated_request args v Hv) as (t & _ & _ & _ & _ & Hmm).
  unfold maxmem_of in Hmm. rewrite H1, H2 in Hmm.
  pose proof (double_to_int_range d) as Hrange.
  assert (Hval : maxmem v =
                 (if double_to_int d <? 0 then 0 else double_to_int d)).
  { rewrite Hmm. unfold maxmem_default.
    destruct (double_to_int d <? 0) eqn:E; [reflexivity |].
    apply Z.ltb_ge in E. apply size_t_of_int_nonneg. lia. }
  assert (Hbound : 0 <= maxmem v <= INT_MAX).
  { rewrite Hval. destruct (double_to_int d <? 0) eqn:E.
    - unfold INT_MAX. lia.
    - apply Z.ltb_ge in E. lia. }
  split; [exact Hval |]. split; [exact Hbound |].
  split; [intros s m e ->; apply double_trunc_finite |].
  split; [| split; [| split]].
  - intros z Hz. split.
    + intros <-. exact Hbound.
    + intros Hz01. rewrite Hval. unfold double_to_int. rewrite Hz.
      assert (E1 : (INT_MIN <=? z) && (z <=? INT_MAX) = true).
      { apply andb_true_iff. split; apply Z.leb_le; unfold INT_MIN; lia. }
      rewrite E1.
      destruct (z <? 0) eqn:E; [apply Z.ltb_lt in E; lia | reflexivity].
  - intros z Hz Hbig. rewrite Hval. unfold double_to_int. rewrite Hz.
    assert (E1 : (INT_MIN <=? z) && (z <=? INT_MAX) = false).
    { apply andb_false_iff. right. apply Z.leb_gt. exact Hbig. }
    rewrite E1. reflexivity.
  - intros Hnone. rewrite Hval. unfold double_to_int. rewrite Hnone.
    reflexivity.
  - apply (resolver_receives_validated args v h Hv).
Qed.

(** ** Further properties of the validation *)

Lemma switch_message (i : nat) (a : Value) (v v' : Refs) :
  ValidateArguments_switch i a v = inl v' -> message v' = message v.
Proof.
  unfold ValidateArguments_switch.
  destruct i as [| [| [| i]]]; intros H;
    repeat match type of H with
           | (if ?c then _ else _) = _ => destruct c
           | (let _ := _ in _) = _ => cbv zeta in H
           end;
    inversion H; reflexivity.
Qed.

Lemma switch_failure_callbackPosition (i : nat) (a : Value) (v v' : Refs) :
  ValidateArguments_switch i a v = inr v' ->
  callbackPosition v' = callbackPosition v.
Proof.
  unfold ValidateArguments_switch.
  destruct i as [| [| [| i]]]; intros H;
    repeat match type of H with
           | (if ?c then _ else _) = _ => destruct c
           | (let _ := _ in _) = _ => cbv zeta in H
           end;
    inversion H; reflexivity.
Qed.

Lemma loop_result (rest : list Value) :
  forall (i : nat) (v : Refs) (rc : Z) (v' : Refs),
    ValidateArguments_loop i rest v = (rc, v') ->
    (rc = 0 /\ message v' = message v) \/
    (rc = 1 /\ callbackPosition v' = callbackPosition v).
Proof.
  induction rest as [| a rest IH]; intros i v rc v' H; simpl in H.
  - inversion H; subst. left. auto.
  - destruct ((0 <? i)%nat && IsFunction a).
    + inversion H; subst. left. auto.
    + destruct (ValidateArguments_switch i a v) as [v0 | v0] eqn:Hsw.
      * destruct (IH _ _ _ _ H) as [[-> Hm] | [-> Hc]].
        -- left. split; [reflexivity |].
           rewrite Hm. exact (switch_message _ _ _ _ Hsw).
        -- right. split; [reflexivity |].
           rewrite Hc. exact (switch_callbackPosition _ _ _ _ Hsw).
      * inversion H; subst. right. split; [reflexivity |].
        exact (switch_failure_callbackPosition _ _ _ _ Hsw).
Qed.

Lemma ValidateArguments_result (args : list Value) (rc : Z) (v : Refs) :
  ValidateArguments args Refs_init = (rc, v) ->
  (rc = 0 /\ message v = "") \/ (rc = 1 /\ callbackPosition v = -1).
Proof.
  destruct args as [| a0 rest]; [intros H; inversion H; subst; right; auto |].
  rewrite ValidateArguments_cons.
  destruct (IsFunction a0); [intros H; inversion H; subst; right; auto |].
  intros H. exact (loop_result _ _ _ _ _ H).
Qed.

Lemma double_not_le_zero (d : double) :
  double_le_zero d = false -> double_pos d = true \/ d = S754_nan.
Proof.
  destruct d as [s | s | | s m e]; try destruct s; cbn; auto; discriminate.
Qed.

(** X1. [ValidateArguments] returns 0 or 1 and nothing else; it returns 1
    exactly on the validation failures (no argument; a function first; a
    non-number at index 0, 1 or 2 met before any function; a first argument
    [<= 0]); and when it returns 1 it has recorded no callback position. *)
Theorem validation_result_characterised (args : list Value) :
  let result := ValidateArguments args Refs_init in
  (fst result = 0 \/ fst result = 1) /\
  (fst result = 1 <-> validation_failure args) /\
  (fst result = 1 -> callbackPosition (snd result) = -1).
Proof.
  intros result.
  destruct (ValidateArguments args Refs_init) as [rc v] eqn:H.
  subst result. cbn [fst snd].
  pose proof (ValidateArguments_result args rc v H) as Hres.
  split; [tauto |]. split; [split |].
  - intros ->. apply (validation_failure_complete args 1 v H). lia.
  - intros Hfail. destruct (validation_failure_detected args Hfail) as [v' Hv'].
    congruence.
  - intros ->. destruct Hres as [[Hrc _] | [_ Hcb]]; [lia | exact Hcb].
Qed.

Lemma Params_throws (args : list Value) (h : Host) (v : Refs) (msg : string) :
  ValidateArguments args Refs_init = (1, v) -> message v = msg ->
  Params args h = (Undefined, ThrowException (Exception_TypeError msg) h).
Proof.
  intros Hv <-. apply (Params_invalid args h 1 v Hv). lia.
Qed.

(** X2. The TypeError [Params] throws for each failure, in the order the
    checks are made: no argument; a function first; a first argument that
    is not a number; a first argument [<= 0]; then, the arguments before
    being accepted and the offending one not being the callable, a second
    argument that is not a number; a third argument that is not a number.
    What follows the offending argument plays no part. *)
Theorem validation_messages (h : Host) :
  let throws args msg :=
    Params args h =
    (Undefined, ThrowException (Exception_TypeError msg) h) in
  throws []
    "Wrong number of arguments: At least one argument is needed - the maxtime"
  /\
  (forall f rest,
     throws (Function f :: rest)
       "Wrong number of arguments: At least one argument is needed before the callback - the maxtime")
  /\
  (forall a rest,
     IsNumber a = false -> IsFunction a = false ->
     throws (a :: rest) "maxtime argument must be a number") /\
  (forall t rest,
     double_le_zero t = true ->
     throws (Number t :: rest) "maxtime must be greater than 0") /\
  (forall t a rest,
     double_le_zero t = false ->
     IsNumber a = false -> IsFunction a = false ->
     throws (Number t :: a :: rest) "max_memfrac argument must be a number")
  /\
  (forall t f a rest,
     double_le_zero t = false ->
     IsNumber a = false -> IsFunction a = false ->
     throws (Number t :: Number f :: a :: rest)
       "maxmem argument must be a number").
Proof.
  intros throws. unfold throws.
  split; [reflexivity |]. split; [reflexivity |].
  split; [| split; [| split]].
  - intros a rest Hn Hf.
    eapply Params_throws;
      [rewrite ValidateArguments_cons, Hf; cbn; rewrite Hn; reflexivity
      | reflexivity].
  - intros t rest Ht.
    eapply Params_throws;
      [rewrite ValidateArguments_cons; cbn; rewrite Ht; reflexivity
      | reflexivity].
  - intros t a rest Ht Hn Hf.
    eapply Params_throws;
      [rewrite ValidateArguments_cons; cbn; rewrite Ht, Hf; cbn;
       rewrite Hn; reflexivity
      | reflexivity].
  - intros t f a rest Ht Hn Hf.
    destruct (double_le_zero f) eqn:Hle;
      (eapply Params_throws;
       [rewrite ValidateArguments_cons; cbn; rewrite Ht, Hle; cbn;
        rewrite Hf; cbn; rewrite Hn; reflexivity
       | reflexivity]).
Qed.

(** X3. What a validated call can hand to the resolver: a [maxtime] and a
    [maxmemfrac] that are greater than 0 or NaN (the tests [<= 0] let NaN
    through), and a [maxmem] between 0 and [INT_MAX].  Validation leaves
    the message empty, and the callback position is -1 or the index of an
    argument after the first. *)
Theorem validated_request_ranges (args : list Value) (v : Refs) :
  ValidateArguments args Refs_init = (0, v) ->
  (double_pos (maxtime v) = true \/ maxtime v = S754_nan) /\
  (double_pos (maxmemfrac v) = true \/ maxmemfrac v = S754_nan) /\
  0 <= maxmem v <= INT_MAX /\
  message v = "" /\
  (callbackPosition v = -1 \/
   1 <= callbackPosition v < Z.of_nat (length args)).
Proof.
  intros Hv.
  destruct (validated_request args v Hv) as (t & _ & Ht & Hmt & Hmf & Hmm).
  split; [rewrite Hmt; apply double_not_le_zero, Ht |].
  split; [| split; [| split]].
  - rewrite Hmf. unfold maxmemfrac_of.
    destruct (args !! 1%nat) as [[| | | d | | | | |] |]; try (left; reflexivity).
    destruct (double_le_zero d) eqn:Hd; [left; reflexivity |].
    apply double_not_le_zero, Hd.
  - assert (Hint : forall d,
              0 <= (if double_to_int d <? 0 then maxmem_default
                    else size_t_of_int (double_to_int d)) <= INT_MAX).
    { intros d. pose proof (double_to_int_range d) as Hr.
      destruct (double_to_int d <? 0) eqn:E.
      - unfold maxmem_default, INT_MAX. lia.
      - apply Z.ltb_ge in E. rewrite size_t_of_int_nonneg by lia. lia. }
    assert (Hdef : 0 <= maxmem_default <= INT_MAX)
      by (unfold maxmem_default, INT_MAX; lia).
    rewrite Hmm. unfold maxmem_of.
    destruct (args !! 1%nat) as [[] |];
      destruct (args !! 2%nat) as [[] |]; auto.
  - destruct (ValidateArguments_result args 0 v Hv) as [[_ Hm] | [Hrc _]];
      [exact Hm | lia].
  - destruct (ValidateArguments_classify args v Hv)
      as [[Hcb _] | (k & f & (Hk & Hf & _) & Hcb)]; [left; exact Hcb |].
    right. apply lookup_lt_Some in Hf. lia.
Qed.

(** ** Further properties of [Params] *)

(** The three ways [Params] can go. *)
Lemma Params_cases (args : list Value) (h : Host) :
  (exists v,
     ValidateArguments args Refs_init = (1, v) /\
     Params args h =
       (Undefined, ThrowException (Exception_TypeError (message v)) h)) \/
  (exists v,
     ValidateArguments args Refs_init = (0, v) /\
     callbackPosition v = -1 /\ no_callable_after_first args /\
     Params args h = ParamsSync (maxmem v) (maxmemfrac v) (maxtime v) h) \/
  (exists v k f,
     ValidateArguments args Refs_init = (0, v) /\
     first_callable args k f /\ callbackPosition v = Z.of_nat k /\
     Params args h = (Undefined, queued_host v (Function f) h)).
Proof.
  destruct (ValidateArguments args Refs_init) as [rc v] eqn:Hv.
  destruct (ValidateArguments_result args rc v Hv) as [[-> _] | [-> _]].
  - right.
    destruct (ValidateArguments_classify args v Hv)
      as [[Hcb Hno] | (k & f & Hfirst & Hcb)].
    + left. exists v. repeat (split; [assumption || reflexivity |]).
      apply Params_sync; assumption.
    + right. exists v, k, f.
      split; [reflexivity |]. split; [exact Hfirst |]. split; [exact Hcb |].
      rewrite (Params_async args h v Hv) by lia.
      destruct Hfirst as (_ & Hf & _).
      rewrite Hcb, (Arguments_get_lookup args k _ Hf). reflexivity.
  - left. exists v. split; [reflexivity |].
    apply (Params_invalid args h 1 v Hv). lia.
Qed.

(** X4. Whatever its arguments, [Params] calls no JavaScript function and
    reports no fatal exception before it returns; it frees and overwrites
    nothing: every baton, request and persistent handle of the host is
    still there, unchanged; it calls the resolver at most once; it queues
    at most one request, a new one; and what it returns is [Undefined] or
    the object of a triple. *)
Theorem Params_calls_nothing_frees_nothing (args : list Value) (h : Host) :
  let h' := snd (Params args h) in
  calls h' = calls h /\ fatal h' = fatal h /\
  (forall a x, batons h !! a = Some x -> batons h' !! a = Some x) /\
  (forall a x, requests h !! a = Some x -> requests h' !! a = Some x) /\
  (forall a x, persistents h !! a = Some x -> persistents h' !! a = Some x) /\
  (resolver_calls h' = resolver_calls h \/
   exists call, resolver_calls h' = resolver_calls h ++ [call]) /\
  (work_queue h' = work_queue h \/
   exists req, work_queue h' = work_queue h ++ [req] /\
               requests h !! req = None /\ is_Some (requests h' !! req)) /\
  (fst (Params args h) = Undefined \/
   exists N r p, fst (Params args h) = createJSONObject N r p).
Proof.
  destruct (Params_cases args h)
    as [(v & _ & ->) | [(v & _ & _ & _ & ->) | (v & k & f & _ & _ & _ & ->)]];
    cbn [fst snd].
  - cbn. repeat split; auto.
  - rewrite ParamsSync_eq.
    destruct (pickparams _ _ _ _) as [code [[N r] p]].
    destruct (code =? 0); cbn; repeat split; eauto.
  - cbn. split; [reflexivity |]. split; [reflexivity |].
    assert (Hfresh : forall (A : Type) (m : gmap addr A) a x y,
              m !! a = Some x -> <[fresh (dom m) := y]> m !! a = Some x).
    { intros A m a x y Ha. rewrite lookup_insert_ne; [exact Ha |].
      intros <-. rewrite fresh_not_allocated in Ha. discriminate. }
    split; [intros a x Ha; rewrite lookup_insert_ne;
            [apply Hfresh, Ha
            | intros <-; rewrite fresh_not_allocated in Ha; discriminate] |].
    split; [intros a x Ha; rewrite lookup_insert_ne;
            [apply Hfresh, Ha
            | intros <-; rewrite fresh_not_allocated in Ha; discriminate] |].
    split; [intros a x Ha; apply Hfresh, Ha |].
    split; [left; reflexivity |].
    split; [| left; reflexivity].
    right. eexists. split; [reflexivity |].
    split; [apply fresh_not_allocated |].
    rewrite lookup_insert_eq. eauto.
Qed.

Lemma loop_append_callable (pre : list Value) :
  forall (i : nat) (f : fn) (post : list Value) (v v' : Refs),
    Forall (fun a => IsFunction a = false) pre ->
    (0 < i + length pre)%nat ->
    ValidateArguments_loop i pre v = (0, v') ->
    ValidateArguments_loop i (pre ++ Function f :: post) v =
    (0, set_callbackPosition (Z.of_nat (i + length pre)) v').
Proof.
  induction pre as [| a pre IH]; intros i f post v v' Hall Hi H;
    simpl in H, Hi |- *.
  - inversion H; subst.
    assert (E : (0 <? i)%nat = true) by (apply Nat.ltb_lt; lia).
    rewrite E, Nat.add_0_r. reflexivity.
  - inversion Hall as [| ? ? Ha Hpre]; subst.
    rewrite Ha, andb_false_r in H |- *.
    destruct (ValidateArguments_switch i a v) as [v0 | v0];
      [| discriminate].
    rewrite (IH (S i) f post v0 v' Hpre) by (lia || exact H).
    do 2 f_equal. lia.
Qed.

(** X5. The two signatures agree.  When the arguments [pre] hold no
    function and are validated, the same arguments followed by a callable
    (and by anything else) are validated with the same [maxmem],
    [maxmemfrac] and [maxtime]; the resolver is called with the same
    inputs on both paths; and the callable receives what the synchronous
    call gives back: [null] and the very object the synchronous call
    returns when the resolver answers 0, and otherwise an error with the
    message of the TypeError the synchronous call throws (an Error on this
    path, not a TypeError). *)
Theorem sync_and_async_agree
    (pre post : list Value) (f : fn) (v : Refs) (h : Host) :
  ValidateArguments pre Refs_init = (0, v) ->
  Forall (fun a => IsFunction a = false) pre ->
  let args := pre ++ Function f :: post in
  let '(code, (N, r, p)) :=
    pickparams (maxmem v) (maxmemfrac v) (maxtime v) (0, 0, 0) in
  ValidateArguments args Refs_init =
    (0, set_callbackPosition (Z.of_nat (length pre)) v) /\
  exists req h1 h2 h3,
    Params args h = (Undefined, h1) /\
    ParamsWork req h1 = Some h2 /\ ParamsAsyncAfter req h2 = Some h3 /\
    resolver_calls h3 = resolver_calls (snd (Params pre h)) /\
    if code =? 0 then
      fst (Params pre h) = createJSONObject N r p /\
      calls h3 = calls h ++ [(f, [Null; createJSONObject N r p])]
    else
      exception (snd (Params pre h)) =
        Some (Exception_TypeError (ScryptErrorDescr code)) /\
      calls h3 =
        calls h ++ [(f, [Exception_Error (ScryptErrorDescr code)])].
Proof.
  intros Hv Hall args.
  assert (Hcb : callbackPosition v = -1).
  { destruct (ValidateArguments_classify pre v Hv)
      as [[Hcb _] | (k & g & (_ & Hg & _) & _)]; [exact Hcb |].
    apply list_elem_of_lookup_2 in Hg.
    rewrite Forall_forall in Hall. specialize (Hall _ Hg). discriminate. }
  assert (Hargs : ValidateArguments args Refs_init =
                  (0, set_callbackPosition (Z.of_nat (length pre)) v)).
  { unfold args. destruct pre as [| a0 pre]; [discriminate |].
    rewrite ValidateArguments_cons in Hv.
    cbn [app]. rewrite ValidateArguments_cons.
    destruct (IsFunction a0); [discriminate |].
    apply (loop_append_callable (a0 :: pre) 0 f post Refs_init v Hall);
      [cbn; lia | exact Hv]. }
  pose proof (Params_async args h _ Hargs) as HP.
  cbn [callbackPosition set_callbackPosition] in HP.
  specialize (HP ltac:(lia)).
  assert (Hget : Arguments_get args (Z.of_nat (length pre)) = Function f).
  { apply Arguments_get_lookup. unfold args.
    rewrite lookup_app_r by lia. rewrite Nat.sub_diag. reflexivity. }
  rewrite Hget in HP.
  pose proof (async_lifecycle
                (set_callbackPosition (Z.of_nat (length pre)) v) f h)
    as Hlife.
  cbv zeta in Hlife.
  cbn [maxmem maxmemfrac maxtime set_callbackPosition] in Hlife.
  rewrite (Params_sync pre h v Hv Hcb), ParamsSync_eq.
  destruct (pickparams (maxmem v) (maxmemfrac v) (maxtime v) (0, 0, 0))
    as [code [[N r] p]].
  destruct Hlife as (h2 & Hwork & _ & _ & _ & _ & _ & _ & _ & Hafter).
  split; [exact Hargs |].
  exists (fresh (dom (requests h))). do 3 eexists.
  split; [exact HP |]. split; [exact Hwork |]. split; [exact Hafter |].
  unfold completion_argv.
  destruct (code =? 0); cbn; auto.
Qed.

(** X6. Nothing leaks.  For a validated call with a callable after the
    first argument, once [Params], [ParamsWork] and [ParamsAsyncAfter] have
    run on the request, the batons, the requests and the persistent
    handles of the host are exactly those from before the call, whether
    the resolver failed or not and whether the callable threw or not. *)
Theorem async_round_trip_restores_heap
    (args : list Value) (v : Refs) (k : nat) (f : fn) (h : Host) :
  ValidateArguments args Refs_init = (0, v) ->
  first_callable args k f ->
  exists req h1 h2 h3,
    Params args h = (Undefined, h1) /\
    requests h !! req = None /\ is_Some (requests h1 !! req) /\
    ParamsWork req h1 = Some h2 /\ ParamsAsyncAfter req h2 = Some h3 /\
    batons h3 = batons h /\ requests h3 = requests h /\
    persistents h3 = persistents h /\ exception h3 = exception h.
Proof.
  intros Hv Hfirst.
  destruct (ValidateArguments_classify args v Hv)
    as [[_ Hno] | (k' & f' & Hfirst' & Hcb)].
  { destruct (first_callable_excludes_none args k f Hfirst Hno). }
  destruct (first_callable_unique args k k' f f' Hfirst Hfirst') as [<- <-].
  pose proof (Params_async args h v Hv ltac:(lia)) as HP.
  destruct Hfirst as (_ & Hf & _).
  rewrite Hcb, (Arguments_get_lookup args k _ Hf) in HP.
  pose proof (async_lifecycle v f h) as Hlife. cbv zeta in Hlife.
  destruct (pickparams (maxmem v) (maxmemfrac v) (maxtime v) (0, 0, 0))
    as [code [[N r] p]].
  destruct Hlife as (h2 & Hwork & _ & _ & _ & _ & _ & _ & _ & Hafter).
  exists (fresh (dom (requests h))). do 3 eexists.
  split; [exact HP |].
  split; [apply fresh_not_allocated |].
  split; [cbn; rewrite lookup_insert_eq; eauto |].
  split; [exact Hwork |]. split; [exact Hafter |].
  cbn. auto.
Qed.

(** ** The heap under any schedule *)

Lemma request_parts_Some (h : Host) (req b hd : addr) (f : fn) :
  request_parts h req = Some (b, hd, f) <->
  exists baton,
    requests h !! req = Some (mk_work (Some b)) /\
    batons h !! b = Some baton /\
    Baton.callback baton = Some hd /\
    persistents h !! hd = Some (Function f).
Proof.
  unfold request_parts. split.
  - intros H.
    destruct (requests h !! req) as [[[b' |]] |]; try discriminate.
    cbn in H.
    destruct (batons h !! b') as [baton |] eqn:Hb; try discriminate.
    cbn in H.
    destruct (Baton.callback baton) as [hd' |] eqn:Hcb; try discriminate.
    cbn in H.
    destruct (persistents h !! hd') as [[] |] eqn:Hhd; try discriminate.
    cbn in H. inversion H; subst. exists baton. auto.
  - intros (baton & -> & Hb & Hcb & Hhd). cbn.
    rewrite Hb. cbn. rewrite Hcb. cbn. rewrite Hhd. reflexivity.
Qed.

Lemma request_parts_requests (h : Host) (r : addr) (x : addr * addr * fn) :
  request_parts h r = Some x -> is_Some (requests h !! r).
Proof.
  destruct x as [[b hd] f]. intros H.
  apply request_parts_Some in H as (baton & Hr & _). eauto.
Qed.

Lemma heap_ok_transfer (h h' : Host) :
  (forall r, is_Some (requests h' !! r) ->
             is_Some (requests h !! r) /\
             request_parts h' r = request_parts h r) ->
  heap_ok h -> heap_ok h'.
Proof.
  intros Hback [Hlive Hsep]. split.
  - intros r Hr. destruct (Hback r Hr) as [Hr' ->]. apply Hlive, Hr'.
  - intros r1 r2 b1 hd1 f1 b2 hd2 f2 H1 H2.
    destruct (Hback r1 (request_parts_requests _ _ _ H1)) as [_ E1].
    destruct (Hback r2 (request_parts_requests _ _ _ H2)) as [_ E2].
    rewrite E1 in H1. rewrite E2 in H2.
    exact (Hsep _ _ _ _ _ _ _ _ H1 H2).
Qed.

Lemma heap_ok_same_heap (h h' : Host) :
  requests h' = requests h -> batons h' = batons h ->
  persistents h' = persistents h -> heap_ok h -> heap_ok h'.
Proof.
  intros Hr Hb Hp. apply heap_ok_transfer.
  intros r. rewrite Hr. split; [assumption |].
  unfold request_parts. rewrite Hr, Hb, Hp. reflexivity.
Qed.

Lemma heap_ok_queued (v : Refs) (f : fn) (h : Host) :
  heap_ok h -> heap_ok (queued_host v (Function f) h).
Proof.
  intros [Hlive Hsep].
  set (req := fresh (dom (requests h))).
  set (b := fresh (dom (batons h))).
  set (hd := fresh (dom (persistents h))).
  assert (Hnew : request_parts (queued_host v (Function f) h) req
                 = Some (b, hd, f)).
  { apply request_parts_Some. exists (queued_baton v h).
    destruct (queued_host_lookups v (Function f) h) as (H1 & H2 & H3).
    auto. }
  assert (Hold : forall r x,
            r <> req ->
            request_parts (queued_host v (Function f) h) r = Some x <->
            request_parts h r = Some x).
  { intros r [[b1 hd1] f1] Hr. rewrite !request_parts_Some. cbn.
    fold req b hd. rewrite !(lookup_insert_ne _ req r) by congruence.
    split; intros (baton & Hrq & Hb & Hcb & Hhd).
    - destruct (decide (b1 = b)) as [-> | Hne].
      + exfalso.
        assert (Hex : is_Some (requests h !! r)) by eauto.
        destruct (Hlive r Hex) as [[[b2 hd2] f2] Hparts].
        apply request_parts_Some in Hparts as (baton2 & Hrq2 & Hb2 & _).
        rewrite Hrq in Hrq2. inversion Hrq2; subst b2.
        unfold b in Hb2. rewrite fresh_not_allocated in Hb2. discriminate.
      + rewrite !lookup_insert_ne in Hb by congruence.
        exists baton. repeat split; try assumption.
        destruct (decide (hd1 = hd)) as [-> | Hne'].
        * exfalso.
          assert (Hex : is_Some (requests h !! r)) by eauto.
          destruct (Hlive r Hex) as [[[b2 hd2] f2] Hparts].
          apply request_parts_Some in Hparts
            as (baton2 & Hrq2 & Hb2 & Hcb2 & Hhd2).
          rewrite Hrq in Hrq2. inversion Hrq2; subst b2.
          rewrite Hb in Hb2. inversion Hb2; subst baton2.
          rewrite Hcb in Hcb2. inversion Hcb2; subst hd2.
          unfold hd in Hhd2. rewrite fresh_not_allocated in Hhd2.
          discriminate.
        * rewrite lookup_insert_ne in Hhd by congruence. exact Hhd.
    - assert (b1 <> b).
      { intros ->. unfold b in Hb. rewrite fresh_not_allocated in Hb.
        discriminate. }
      assert (hd1 <> hd).
      { intros ->. unfold hd in Hhd. rewrite fresh_not_allocated in Hhd.
        discriminate. }
      exists baton. rewrite !lookup_insert_ne by congruence. auto. }
  split.
  - intros r Hr. destruct (decide (r = req)) as [-> | Hne]; [eauto |].
    cbn in Hr. fold req in Hr. rewrite !lookup_insert_ne in Hr by congruence.
    destruct (Hlive r Hr) as [x Hx]. exists x. apply Hold; assumption.
  - intros r1 r2 b1 hd1 f1 b2 hd2 f2 H1 H2 Hne.
    assert (Hfresh : forall r b' hd' f',
              r <> req -> request_parts h r = Some (b', hd', f') ->
              b' <> b /\ hd' <> hd).
    { intros r b' hd' f' _ Hparts.
      apply request_parts_Some in Hparts as (baton & _ & Hb & _ & Hhd).
      split; intros ->.
      - unfold b in Hb. rewrite fresh_not_allocated in Hb. discriminate.
      - unfold hd in Hhd. rewrite fresh_not_allocated in Hhd. discriminate. }
    destruct (decide (r1 = req)) as [-> | Hr1];
      destruct (decide (r2 = req)) as [-> | Hr2]; [contradiction | | |].
    + rewrite Hnew in H1. inversion H1; subst.
      apply Hold in H2; [| exact Hr2].
      destruct (Hfresh _ _ _ _ Hr2 H2). split; congruence.
    + rewrite Hnew in H2. inversion H2; subst.
      apply Hold in H1; [| exact Hr1].
      exact (Hfresh _ _ _ _ Hr1 H1).
    + apply Hold in H1; [| exact Hr1]. apply Hold in H2; [| exact Hr2].
      exact (Hsep _ _ _ _ _ _ _ _ H1 H2 Hne).
Qed.

Lemma heap_ok_Params (args : list Value) (h : Host) :
  heap_ok h -> heap_ok (snd (Params args h)).
Proof.
  intros Hok.
  destruct (Params_cases args h)
    as [(v & _ & ->) | [(v & _ & _ & _ & ->) | (v & k & f & _ & _ & _ & ->)]];
    cbn [snd].
  - apply (heap_ok_same_heap h); auto.
  - rewrite ParamsSync_eq.
    destruct (pickparams _ _ _ _) as [code [[N r] p]].
    destruct (code =? 0); apply (heap_ok_same_heap h); auto.
  - apply heap_ok_queued, Hok.
Qed.

Lemma ParamsWork_inv (req : addr) (h h' : Host) :
  ParamsWork req h = Some h' ->
  exists b baton,
    requests h !! req = Some (mk_work (Some b)) /\
    batons h !! b = Some baton.
Proof.
  unfold ParamsWork. intros H.
  destruct (requests h !! req) as [[[b |]] |]; try discriminate. cbn in H.
  destruct (batons h !! b) as [baton |] eqn:Hb; try discriminate.
  exists b, baton. auto.
Qed.

Lemma ParamsAsyncAfter_inv (req : addr) (h h' : Host) :
  ParamsAsyncAfter req h = Some h' ->
  exists b hd f, request_parts h req = Some (b, hd, f).
Proof.
  unfold ParamsAsyncAfter, request_parts. intros H.
  destruct (requests h !! req) as [[[b |]] |]; try discriminate. cbn in H |- *.
  destruct (batons h !! b) as [baton |]; try discriminate. cbn in H |- *.
  unfold Call_TryCatch, Function_Call in H.
  destruct (Baton.callback baton) as [hd |];
    [| destruct (negb (Baton.result baton =? 0)); discriminate].
  cbn in H |- *.
  destruct (persistents h !! hd) as [v |];
    [| destruct (negb (Baton.result baton =? 0)); discriminate].
  cbn in H |- *.
  destruct v; try (destruct (negb (Baton.result baton =? 0)); discriminate).
  eauto.
Qed.

Lemma heap_ok_ParamsWork (req : addr) (h h' : Host) :
  ParamsWork req h = Some h' -> heap_ok h -> heap_ok h'.
Proof.
  intros H.
  destruct (ParamsWork_inv req h h' H) as (b & baton & Hreq & Hb).
  rewrite (ParamsWork_some req b baton h Hreq Hb) in H.
  destruct (pickparams _ _ _ _) as [result [[N r] p]].
  inversion H; subst h'. clear H.
  intros Hok. apply (heap_ok_transfer h); [| exact Hok].
  cbn. intros r0 Hr0. split; [exact Hr0 |].
  unfold request_parts. cbn.
  destruct (requests h !! r0) as [[[b0 |]] |]; try reflexivity. cbn.
  destruct (decide (b0 = b)) as [-> | Hne].
  - rewrite lookup_insert_eq, Hb. reflexivity.
  - rewrite lookup_insert_ne by congruence. reflexivity.
Qed.

Lemma heap_ok_ParamsAsyncAfter (req : addr) (h h' : Host) :
  ParamsAsyncAfter req h = Some h' -> heap_ok h -> heap_ok h'.
Proof.
  intros H Hok.
  destruct (ParamsAsyncAfter_inv req h h' H) as (b & hd & f & Hparts).
  pose proof Hparts as Hparts0.
  apply request_parts_Some in Hparts as (baton & Hreq & Hb & Hcb & Hhd).
  rewrite (ParamsAsyncAfter_some req b hd baton f h Hreq Hb Hcb Hhd) in H.
  inversion H; subst h'. clear H.
  pose proof Hok as [Hlive Hsep].
  apply (heap_ok_transfer h); [| exact Hok]. cbn. intros r0 Hr0.
  assert (Hne : r0 <> req).
  { intros ->. rewrite lookup_delete_eq in Hr0. destruct Hr0; discriminate. }
  rewrite lookup_delete_ne in Hr0 by congruence.
  split; [exact Hr0 |].
  destruct (Hlive r0 Hr0) as [[[b0 hd0] f0] Hparts1].
  destruct (Hsep _ _ _ _ _ _ _ _ Hparts1 Hparts0 Hne) as [Hb0 Hhd0].
  rewrite Hparts1. apply request_parts_Some.
  apply request_parts_Some in Hparts1 as (baton0 & H1 & H2 & H3 & H4).
  exists baton0. cbn. rewrite !lookup_delete_ne by congruence. auto.
Qed.

Lemma heap_ok_empty : heap_ok Host_empty.
Proof.
  split.
  - intros req [w Hw]. cbn in Hw. rewrite lookup_empty in Hw. discriminate.
  - intros r1 r2 b1 hd1 f1 b2 hd2 f2 H1 _ _.
    apply request_parts_requests in H1 as [w Hw].
    cbn in Hw. rewrite lookup_empty in Hw. discriminate.
Qed.

Lemma reachable_heap_ok (h : Host) : reachable h -> heap_ok h.
Proof.
  induction 1 as [| args h _ IH | req h h' _ IH Hw | req h h' _ IH Ha].
  - apply heap_ok_empty.
  - apply heap_ok_Params, IH.
  - exact (heap_ok_ParamsWork req h h' Hw IH).
  - exact (heap_ok_ParamsAsyncAfter req h h' Ha IH).
Qed.

(** X7. No step ever follows a dangling pointer.  In every host that calls
    of [Params] on any arguments and runs of the two steps on any requests,
    in any order, lead to from the empty host, each request still in the
    heap has its baton, the baton holds a live persistent handle, and the
    handle is on a function; so [ParamsWork] and [ParamsAsyncAfter] return
    on it.  Distinct requests share neither baton nor handle. *)
Theorem reachable_requests_are_live (h : Host) :
  reachable h ->
  heap_ok h /\
  forall req,
    is_Some (requests h !! req) ->
    is_Some (request_parts h req) /\
    is_Some (ParamsWork req h) /\ is_Some (ParamsAsyncAfter req h).
Proof.
  intros Hreach. pose proof (reachable_heap_ok h Hreach) as Hok.
  split; [exact Hok |].
  intros req Hreq. destruct Hok as [Hlive _].
  destruct (Hlive req Hreq) as [[[b hd] f] Hparts].
  split; [eauto |].
  apply request_parts_Some in Hparts as (baton & H1 & H2 & H3 & H4).
  split.
  - rewrite (ParamsWork_some req b baton h H1 H2).
    destruct (pickparams _ _ _ _). eauto.
  - rewrite (ParamsAsyncAfter_some req b hd baton f h H1 H2 H3 H4). eauto.
Qed.

(** X8. Work steps of different requests do not interfere.  In a host
    whose heap is in order, [ParamsWork] on two distinct requests returns
    in either order, and both orders leave the same batons (each with the
    outcome of its own resolver call), requests, handles, queue, exception,
    calls and fatal exceptions; only the order of the two resolver calls in
    the log differs. *)
Theorem work_steps_commute (r1 r2 : addr) (h : Host) :
  heap_ok h -> r1 <> r2 ->
  is_Some (requests h !! r1) -> is_Some (requests h !! r2) ->
  exists h1 h2 h12 h21,
    ParamsWork r1 h = Some h1 /\ ParamsWork r2 h1 = Some h12 /\
    ParamsWork r2 h = Some h2 /\ ParamsWork r1 h2 = Some h21 /\
    batons h12 = batons h21 /\ requests h12 = requests h21 /\
    persistents h12 = persistents h21 /\
    work_queue h12 = work_queue h21 /\ exception h12 = exception h21 /\
    calls h12 = calls h21 /\ fatal h12 = fatal h21 /\
    resolver_calls h12 ≡ₚ resolver_calls h21.
Proof.
  intros [Hlive Hsep] Hne Hr1 Hr2.
  destruct (Hlive r1 Hr1) as [[[b1 hd1] f1] Hp1].
  destruct (Hlive r2 Hr2) as [[[b2 hd2] f2] Hp2].
  destruct (Hsep _ _ _ _ _ _ _ _ Hp1 Hp2 Hne) as [Hb _].
  apply request_parts_Some in Hp1 as (x1 & Hq1 & Hx1 & _).
  apply request_parts_Some in Hp2 as (x2 & Hq2 & Hx2 & _).
  pose proof (ParamsWork_some r1 b1 x1 h Hq1 Hx1) as W1.
  pose proof (ParamsWork_some r2 b2 x2 h Hq2 Hx2) as W2.
  destruct (pickparams (Baton.maxmem x1) _ _ _) as [res1 cells1] eqn:E1.
  destruct (pickparams (Baton.maxmem x2) _ _ _) as [res2 cells2] eqn:E2.
  do 4 eexists.
  split; [exact W1 |].
  split.
  { erewrite ParamsWork_some;
      [rewrite E2; reflexivity | exact Hq2
      | cbn; rewrite lookup_insert_ne by congruence; exact Hx2]. }
  split; [exact W2 |].
  split.
  { erewrite ParamsWork_some;
      [rewrite E1; reflexivity | exact Hq1
      | cbn; rewrite lookup_insert_ne by congruence; exact Hx1]. }
  cbn. split; [apply insert_insert_ne; congruence |].
  repeat (split; [reflexivity |]).
  rewrite <- !app_assoc. apply Permutation_app_head. apply perm_swap.
Qed.

(** X9. Completions of different requests release different objects.  In
    a host whose heap is in order, [ParamsAsyncAfter] on two distinct
    requests returns in either order; both orders release both requests
    with their batons and handles, and leave the same batons, requests and
    persistent handles. *)
Theorem completions_commute (r1 r2 : addr) (h : Host) :
  heap_ok h -> r1 <> r2 ->
  is_Some (requests h !! r1) -> is_Some (requests h !! r2) ->
  exists b1 hd1 f1 b2 hd2 f2 h1 h2 h12 h21,
    request_parts h r1 = Some (b1, hd1, f1) /\
    request_parts h r2 = Some (b2, hd2, f2) /\
    ParamsAsyncAfter r1 h = Some h1 /\ ParamsAsyncAfter r2 h1 = Some h12 /\
    ParamsAsyncAfter r2 h = Some h2 /\ ParamsAsyncAfter r1 h2 = Some h21 /\
    batons h12 = batons h21 /\ requests h12 = requests h21 /\
    persistents h12 = persistents h21 /\
    requests h12 !! r1 = None /\ requests h12 !! r2 = None /\
    batons h12 !! b1 = None /\ batons h12 !! b2 = None /\
    persistents h12 !! hd1 = None /\ persistents h12 !! hd2 = None.
Proof.
  intros [Hlive Hsep] Hne Hr1 Hr2.
  destruct (Hlive r1 Hr1) as [[[b1 hd1] f1] Hp1].
  destruct (Hlive r2 Hr2) as [[[b2 hd2] f2] Hp2].
  destruct (Hsep _ _ _ _ _ _ _ _ Hp1 Hp2 Hne) as [Hb Hhd].
  exists b1, hd1, f1, b2, hd2, f2.
  pose proof Hp1 as Hp1'. pose proof Hp2 as Hp2'.
  apply request_parts_Some in Hp1 as (x1 & Hq1 & Hx1 & Hc1 & Hh1).
  apply request_parts_Some in Hp2 as (x2 & Hq2 & Hx2 & Hc2 & Hh2).
  do 4 eexists.
  split; [exact Hp1' |]. split; [exact Hp2' |].
  split; [exact (ParamsAsyncAfter_some r1 b1 hd1 x1 f1 h Hq1 Hx1 Hc1 Hh1) |].
  split.
  { apply (ParamsAsyncAfter_some r2 b2 hd2 x2 f2); cbn;
      try rewrite lookup_delete_ne by congruence; assumption. }
  split; [exact (ParamsAsyncAfter_some r2 b2 hd2 x2 f2 h Hq2 Hx2 Hc2 Hh2) |].
  split.
  { apply (ParamsAsyncAfter_some r1 b1 hd1 x1 f1); cbn;
      try rewrite lookup_delete_ne by congruence; assumption. }
  cbn.
  split; [apply delete_delete |]. split; [apply delete_delete |].
  split; [apply delete_delete |].
  split; [rewrite lookup_delete_ne by congruence; apply lookup_delete_eq |].
  split; [apply lookup_delete_eq |].
  split; [rewrite lookup_delete_ne by congruence; apply lookup_delete_eq |].
  split; [apply lookup_delete_eq |].
  split; [rewrite lookup_delete_ne by congruence; apply lookup_delete_eq |].
  apply lookup_delete_eq.
Qed.

End Dispatcher.

(** ** The scenarios, on the stub resolver *)

Local Abbreviation stub_Params :=
  (Params stub_pickparams stub_ScryptErrorDescr stub_Integer_New).
Local Abbreviation stub_ParamsSync :=
  (ParamsSync stub_pickparams stub_ScryptErrorDescr stub_Integer_New).
Local Abbreviation stub_ParamsWork := (ParamsWork stub_pickparams).
Local Abbreviation stub_ParamsAsyncAfter :=
  (ParamsAsyncAfter stub_ScryptErrorDescr stub_Integer_New stub_js_call).

(** The constants are the doubles they are meant to be. *)
Example doubles_check :
  SFmul 53 1024 maxmemfrac_default (double_of_Z 2) = double_of_Z 1 /\
  SFmul 53 1024 quarter (double_of_Z 4) = double_of_Z 1 /\
  SFmul 53 1024 two_and_a_half (double_of_Z 2) = double_of_Z 5.
Proof. repeat split. Qed.

(** Conversion to [int] rounds toward zero and gives [INT_MIN] out of
    range. *)
Example double_to_int_check :
  double_to_int two_and_a_half = 2 /\
  double_to_int (SFopp two_and_a_half) = -2 /\
  double_to_int (double_of_Z (2 ^ 31 - 1)) = 2 ^ 31 - 1 /\
  double_to_int (double_of_Z (2 ^ 31)) = INT_MIN /\
  double_to_int (S754_infinity false) = INT_MIN /\
  double_to_int S754_nan = INT_MIN.
Proof. repeat split. Qed.

(** [double_of_int] is the double [binary_normalize] rounds the integer to,
    at the ends of the [int32_t] range and in between. *)
Example double_of_int_check :
  double_of_int 16384 = double_of_Z 16384 /\
  double_of_int 8 = double_of_Z 8 /\
  double_of_int 1 = double_of_Z 1 /\
  double_of_int 0 = double_of_Z 0 /\
  double_of_int (-1) = double_of_Z (-1) /\
  double_of_int INT_MIN = double_of_Z INT_MIN /\
  double_of_int INT_MAX = double_of_Z INT_MAX.
Proof. repeat split. Qed.

Lemma double_trunc_double_of_int (n : Z) :
  - 2 ^ 53 < n < 2 ^ 53 -> double_trunc (double_of_int n) = Some n.
Proof.
  intros Hn.
  assert (Hpos : forall m : positive,
            Z.pos m < 2 ^ 53 ->
            let k := 52 - Z.log2 (Z.pos m) in
            Z.shiftl (Z.pos (Z.to_pos (Z.shiftl (Z.pos m) k))) (- k)
            = Z.pos m).
  { intros m Hm k.
    assert (Hk : 0 <= k).
    { assert (Z.log2 (Z.pos m) < 53) by (apply Z.log2_lt_pow2; lia).
      unfold k. lia. }
    assert (Hsh : Z.shiftl (Z.pos m) k = Z.pos m * 2 ^ k)
      by (apply Z.shiftl_mul_pow2; exact Hk).
    assert (0 < 2 ^ k) by (apply Z.pow_pos_nonneg; lia).
    rewrite Z2Pos.id by (rewrite Hsh; lia).
    rewrite Hsh, Z.shiftl_div_pow2 by lia.
    rewrite Z.opp_involutive. apply Z.div_mul. lia. }
  destruct n as [| m | m]; [reflexivity | |]; unfold double_of_int;
    cbn [double_trunc Z.abs].
  - rewrite Hpos by lia. reflexivity.
  - rewrite Hpos by lia. reflexivity.
Qed.

(** The stub of [Integer::New] and [Integer::Value] has the property asked
    of the two. *)
Lemma stub_Integer_New_Value (n : Z) :
  INT_MIN <= n <= INT_MAX -> stub_Integer_Value (stub_Integer_New n) = Some n.
Proof.
  intros Hn. apply double_trunc_double_of_int.
  unfold INT_MIN, INT_MAX in Hn. lia.
Qed.

(** [maxtime = 5] alone: the call returns the resolver's triple. *)
Lemma sync_call_returns_resolver_output_witness :
  exists vN vr vp,
    stub_Params args_maxtime_only Host_empty =
    (Object [("N", vN); ("r", vr); ("p", vp)],
     set_resolver_calls [(0, maxmemfrac_default, double_of_Z 5)] Host_empty)
    /\
    stub_Integer_Value vN = Some 16384 /\
    stub_Integer_Value vr = Some 8 /\
    stub_Integer_Value vp = Some 1.
Proof.
  destruct (sync_call_returns_resolver_output
              stub_pickparams stub_ScryptErrorDescr stub_Integer_New
              stub_Integer_Value stub_Integer_New_Value
              args_maxtime_only (double_of_Z 5) Host_empty)
    as (v & Hv & _ & _ & HP).
  - reflexivity.
  - reflexivity.
  - intros a Ha. discriminate Ha.
  - intros a Ha. discriminate Ha.
  - repeat constructor.
  - vm_compute in Hv. inversion Hv; subst v.
    destruct HP as (vN & vr & vp & HP & HN & Hr & Hp).
    exists vN, vr, vp. split; [exact HP |].
    unfold INT_MIN, INT_MAX in *.
    split; [apply HN; lia |]. split; [apply Hr; lia | apply Hp; lia].
Defined.

(** With a resolver answering [r = 4294967295] and [p = 2147483648], the
    object the call returns holds -1 and -2147483648. *)
Lemma sync_call_narrows_counterexample :
  stub_pickparams_large 0 maxmemfrac_default (double_of_Z 5) (0, 0, 0)
    = (0, (16384, 4294967295, 2147483648)) /\
  fst (Params stub_pickparams_large stub_ScryptErrorDescr stub_Integer_New
         args_maxtime_only Host_empty)
    = Object [("N", stub_Integer_New 16384); ("r", stub_Integer_New (-1));
              ("p", stub_Integer_New (-2147483648))] /\
  stub_Integer_Value (stub_Integer_New (-1)) = Some (-1) /\
  stub_Integer_Value (stub_Integer_New (-2147483648)) = Some (-2147483648).
Proof. repeat split. Qed.

(** [(5, 0.25, 1048576, callback)] with the resolver failing with code 7:
    the callback is called once, with the error of that code. *)
Lemma completion_invokes_continuation_once_witness :
  exists req h1 h2 h3,
    stub_Params args_with_callback Host_empty = (Undefined, h1) /\
    stub_ParamsWork req h1 = Some h2 /\
    stub_ParamsAsyncAfter req h2 = Some h3 /\
    calls h3 = [(0%nat, [Exception_Error "error 7"])].
Proof.
  destruct (completion_invokes_continuation_once
              stub_pickparams stub_ScryptErrorDescr stub_Integer_New
              stub_Integer_Value stub_Integer_New_Value
              stub_js_call args_with_callback
              (snd (ValidateArguments args_with_callback Refs_init))
              3%nat 0%nat Host_empty)
    as (k & f & req & h1 & h2 & h3 & Hfirst & HP & _ & _ & HW & _ & HA & Hc).
  - reflexivity.
  - lia.
  - reflexivity.
  - exists req, h1, h2, h3.
    split; [exact HP |]. split; [exact HW |]. split; [exact HA |].
    destruct Hfirst as (_ & Hf & _).
    destruct k as [| [| [| [| k]]]]; try discriminate Hf.
    inversion Hf; subst f. exact Hc.
Defined.

(** [(5, callback)] with a resolver answering [r = 4294967295] and
    [p = 2147483648]: the object the callback receives holds -1 and
    -2147483648. *)
Lemma completion_narrows_counterexample :
  let args := [Number (double_of_Z 5); Function 0%nat] in
  let h1 := snd (Params stub_pickparams_large stub_ScryptErrorDescr
                   stub_Integer_New args Host_empty) in
  exists h2 h3,
    ParamsWork stub_pickparams_large 1%positive h1 = Some h2 /\
    stub_ParamsAsyncAfter 1%positive h2 = Some h3 /\
    (Baton.N <$> batons h2 !! 1%positive) = Some 16384 /\
    (Baton.r <$> batons h2 !! 1%positive) = Some 4294967295 /\
    (Baton.p <$> batons h2 !! 1%positive) = Some 2147483648 /\
    calls h3 =
      [(0%nat,
        [Null;
         Object [("N", stub_Integer_New 16384); ("r", stub_Integer_New (-1));
                 ("p", stub_Integer_New (-2147483648))]])].
Proof.
  do 2 eexists. split; [vm_compute; reflexivity |].
  split; [vm_compute; reflexivity |].
  repeat split.
Qed.

(** [(5, "a half", callback)]: index 2 holds a function, yet the scan ends at
    index 1, [callbackPosition] is never set, and [Params] throws with
    nothing queued: the call is given no mode at all. *)
Lemma scan_stops_before_callable_counterexample :
  first_callable args_bad_before_callback 2%nat 0%nat /\
  ValidateArguments args_bad_before_callback Refs_init =
    (1, set_message "max_memfrac argument must be a number"
          (set_maxtime (double_of_Z 5) Refs_init)) /\
  ~ (exists v, ValidateArguments args_bad_before_callback Refs_init = (0, v)) /\
  stub_Params args_bad_before_callback Host_empty =
    (Undefined,
     ThrowException
       (Exception_TypeError "max_memfrac argument must be a number")
       Host_empty).
Proof.
  split.
  { split; [lia |]. split; [reflexivity |].
    intros j a Hj Ha. assert (j = 1%nat) as -> by lia.
    inversion Ha; reflexivity. }
  split; [reflexivity |]. split; [| reflexivity].
  intros [v Hv]. discriminate Hv.
Qed.

(** [(5, 0.25, 1048576, callback)]: the callback is found at index 3, and
    what follows it does not matter. *)
Lemma classification_of_validated_arguments_witness :
  callbackPosition (snd (ValidateArguments args_with_callback Refs_init)) = 3 /\
  forall post',
    stub_Params (take 3 args_with_callback ++ Function 0%nat :: post')
      Host_empty
    = stub_Params args_with_callback Host_empty.
Proof.
  destruct (classification_of_validated_arguments
              stub_pickparams stub_ScryptErrorDescr stub_Integer_New
              args_with_callback
              (snd (ValidateArguments args_with_callback Refs_init))
              Host_empty eq_refl)
    as [[(Hno & _) | (k & f & Hfirst & Hcb & _ & Hign)] _].
  - specialize (Hno 3%nat (Function 0%nat) ltac:(lia) eq_refl).
    discriminate Hno.
  - split; [reflexivity |]. intros post'.
    destruct Hfirst as (_ & Hf & _).
    destruct k as [| [| [| [| k]]]]; try discriminate Hf.
    inversion Hf; subst f. apply (Hign post').
Defined.

(** [(5, "a half", callback)] is rejected at once, although it has the
    asynchronous signature. *)
Lemma validation_failure_thrown_before_resolver_witness :
  stub_Params args_bad_before_callback Host_empty =
  (Undefined,
   ThrowException
     (Exception_TypeError "max_memfrac argument must be a number")
     Host_empty).
Proof.
  destruct (validation_failure_thrown_before_resolver
              stub_pickparams stub_ScryptErrorDescr stub_Integer_New
              args_bad_before_callback Host_empty)
    as (v & Hv & HP & _).
  - right. right. left. exists 1%nat, (Str "a half").
    split; [lia |]. split; [reflexivity |]. split; [reflexivity |].
    intros j b Hj Hb. assert (j = 1%nat) as -> by lia.
    inversion Hb; reflexivity.
  - vm_compute in Hv. inversion Hv; subst v. exact HP.
Defined.

(** [(5, -3, -1)]: the resolver is called with [maxmem = 0] and
    [maxmemfrac = 0.5]. *)
Lemma defaults_applied_witness :
  resolver_calls (snd (stub_Params args_negative Host_empty)) =
  [(0, maxmemfrac_default, double_of_Z 5)].
Proof.
  destruct (defaults_applied
              stub_pickparams stub_ScryptErrorDescr stub_Integer_New
              args_negative (snd (ValidateArguments args_negative Refs_init))
              Host_empty eq_refl)
    as (Hmf & _ & Hmm & (t & Ht & Hmt) & Hsync & _).
  rewrite (Hsync eq_refl).
  rewrite Hmf, Hmm, Hmt.
  - inversion Ht; subst t. reflexivity.
  - right. right. right. exists (double_of_Z (-1)). split; reflexivity.
  - right. right. exists (double_of_Z (-3)). split; reflexivity.
Defined.

(** Four numbers and no callback: the fourth is ignored. *)
Lemma trailing_arguments_ignored_witness :
  stub_Params args_four_numbers Host_empty =
  stub_Params [Number (double_of_Z 5); Number quarter;
               Number (double_of_Z 4096)] Host_empty.
Proof.
  destruct (trailing_arguments_ignored
              stub_pickparams stub_ScryptErrorDescr stub_Integer_New
              (double_of_Z 5) quarter (double_of_Z 4096)
              [Number (double_of_Z 7)] Host_empty)
    as (v & _ & _ & _ & HP).
  - reflexivity.
  - repeat constructor.
  - exact HP.
Defined.

(** A completion whose callback throws: the exception goes to
    [node::FatalException] and the handle, the baton and the request are
    released all the same. *)
Lemma completion_releases_work_unit_witness :
  exists h',
    stub_ParamsAsyncAfter 1%positive (host_awaiting_completion 0 1%nat) = Some h' /\
    persistents h' !! 1%positive = None /\
    batons h' !! 1%positive = None /\
    requests h' !! 1%positive = None /\
    fatal h' = [Str "thrown by the callback"].
Proof.
  destruct (completion_releases_work_unit
              stub_ScryptErrorDescr stub_Integer_New stub_js_call
              1%positive 1%positive 1%positive
              (Baton.mk (Some 1%positive) 0 0 maxmemfrac_default
                 (double_of_Z 5) 16384 8 1)
              1%nat (host_awaiting_completion 0 1%nat)
              eq_refl eq_refl eq_refl eq_refl)
    as (h' & HA & Hp & Hb & Hr & _ & _ & _ & _ & Hfatal & _).
  exists h'. split; [exact HA |]. split; [exact Hp |].
  split; [exact Hb |]. split; [exact Hr |].
  apply (Hfatal (Str "thrown by the callback")). reflexivity.
Defined.

(** The object of (16384, 8, 1) holds 16384, 8 and 1, and is what the
    synchronous path on [maxtime = 5] returns. *)
Lemma result_encoder_witness :
  exists vN vr vp,
    fst (stub_ParamsSync 0 maxmemfrac_default (double_of_Z 5) Host_empty) =
    Object [("N", vN); ("r", vr); ("p", vp)] /\
    stub_Integer_Value vN = Some 16384 /\
    stub_Integer_Value vr = Some 8 /\
    stub_Integer_Value vp = Some 1.
Proof.
  destruct (result_encoder
              stub_pickparams stub_ScryptErrorDescr stub_Integer_New
              stub_Integer_Value stub_Integer_New_Value
              stub_js_call 16384 8 1)
    as ((vN & vr & vp & Henc & HN & Hr & Hp) & Hsync & _).
  exists vN, vr, vp.
  rewrite (Hsync 0 maxmemfrac_default (double_of_Z 5) Host_empty eq_refl).
  split; [exact Henc |].
  unfold INT_MIN, INT_MAX in *.
  split; [apply HN; lia |]. split; [apply Hr; lia | apply Hp; lia].
Defined.

(** On (-1, 4294967295, 2147483648) the object holds -1, -1 and
    -2147483648: values of [r] and [p] from 2^31 on are not kept. *)
Lemma result_encoder_narrows_counterexample :
  createJSONObject stub_Integer_New (-1) 4294967295 2147483648
    = Object [("N", stub_Integer_New (-1)); ("r", stub_Integer_New (-1));
              ("p", stub_Integer_New (-2147483648))] /\
  stub_Integer_Value (stub_Integer_New (-1)) = Some (-1) /\
  stub_Integer_Value (stub_Integer_New (-2147483648)) = Some (-2147483648) /\
  Some (-1) <> Some 4294967295 /\ Some (-2147483648) <> Some 2147483648.
Proof. repeat split; discriminate. Qed.

(** The work step on a waiting request leaves the handles and the calls
    alone. *)
Lemma work_step_writes_outcome_only_witness :
  exists h',
    stub_ParamsWork 1%positive (host_awaiting_completion 0 0%nat) = Some h' /\
    persistents h' = persistents (host_awaiting_completion 0 0%nat) /\
    calls h' = [].
Proof.
  destruct (work_step_writes_outcome_only
              stub_pickparams 1%positive 1%positive
              (Baton.mk (Some 1%positive) 0 0 maxmemfrac_default
                 (double_of_Z 5) 16384 8 1)
              (host_awaiting_completion 0 0%nat) eq_refl eq_refl)
    as (h' & baton' & HW & _ & _ & _ & _ & _ & _ & _ & _ & Hp & _ & _ & Hc & _).
  exists h'. split; [exact HW |]. split; [exact Hp | exact Hc].
Defined.

(** [maxmem = 2^31] does not fit an [int]: the resolver gets 0. *)
Lemma maxmem_narrowed_through_int_witness :
  double_trunc (double_of_Z (2 ^ 31)) = Some (2 ^ 31) /\
  maxmem (snd (ValidateArguments args_huge_maxmem Refs_init)) = 0.
Proof.
  destruct (maxmem_narrowed_through_int
              stub_pickparams stub_ScryptErrorDescr stub_Integer_New
              args_huge_maxmem
              (snd (ValidateArguments args_huge_maxmem Refs_init))
              quarter (double_of_Z (2 ^ 31)) Host_empty
              eq_refl eq_refl eq_refl)
    as (_ & _ & _ & _ & Hbig & _).
  split; [reflexivity |].
  apply (Hbig (2 ^ 31)); [reflexivity | unfold INT_MAX; lia].
Defined.

(** A call whose third argument is not a number is rejected with the
    message of [maxmem]. *)
Lemma validation_messages_witness :
  stub_Params [Number (double_of_Z 5); Number quarter; Null] Host_empty =
  (Undefined,
   ThrowException (Exception_TypeError "maxmem argument must be a number")
     Host_empty).
Proof.
  destruct (validation_messages
              stub_pickparams stub_ScryptErrorDescr stub_Integer_New
              Host_empty)
    as (_ & _ & _ & _ & _ & H3).
  apply (H3 (double_of_Z 5) quarter Null []); reflexivity.
Defined.

(** NaN as [maxtime] and as [maxmemfrac] is validated and kept. *)
Lemma validated_request_ranges_witness :
  maxtime (snd (ValidateArguments args_nan Refs_init)) = S754_nan /\
  maxmemfrac (snd (ValidateArguments args_nan Refs_init)) = S754_nan.
Proof.
  destruct (validated_request_ranges
              args_nan (snd (ValidateArguments args_nan Refs_init)) eq_refl)
    as ([Ht | Ht] & [Hf | Hf] & _); try discriminate Ht; try discriminate Hf.
  split; [exact Ht | exact Hf].
Defined.

(** [maxtime = 5] followed by a callback: the callback receives [null] and
    the object the call without callback returns. *)
Lemma sync_and_async_agree_witness :
  exists req h1 h2 h3,
    stub_Params [Number (double_of_Z 5); Function 0%nat] Host_empty
      = (Undefined, h1) /\
    stub_ParamsWork req h1 = Some h2 /\
    stub_ParamsAsyncAfter req h2 = Some h3 /\
    calls h3 =
      [(0%nat, [Null; fst (stub_Params args_maxtime_only Host_empty)])].
Proof.
  pose proof (sync_and_async_agree
                stub_pickparams stub_ScryptErrorDescr stub_Integer_New
                stub_js_call args_maxtime_only [] 0%nat
                (snd (ValidateArguments args_maxtime_only Refs_init))
                Host_empty eq_refl ltac:(repeat constructor)) as H.
  cbn in H.
  destruct H as (_ & req & h1 & h2 & h3 & HP & HW & HA & _ & _ & Hcalls).
  exists req, h1, h2, h3.
  split; [exact HP |]. split; [exact HW |]. split; [exact HA |].
  exact Hcalls.
Defined.

(** [(5, 0.25, 1048576, callback)] on the empty host: after the completion
    the heap is empty again. *)
Lemma async_round_trip_restores_heap_witness :
  exists req h1 h2 h3,
    stub_Params args_with_callback Host_empty = (Undefined, h1) /\
    stub_ParamsWork req h1 = Some h2 /\
    stub_ParamsAsyncAfter req h2 = Some h3 /\
    batons h3 = ∅ /\ requests h3 = ∅ /\ persistents h3 = ∅.
Proof.
  destruct (async_round_trip_restores_heap
              stub_pickparams stub_ScryptErrorDescr stub_Integer_New
              stub_js_call args_with_callback
              (snd (ValidateArguments args_with_callback Refs_init))
              3%nat 0%nat Host_empty eq_refl)
    as (req & h1 & h2 & h3 & HP & _ & _ & HW & HA & Hb & Hr & Hp & _).
  - split; [lia |]. split; [reflexivity |].
    intros j a Hj Ha. destruct j as [| [| [| j]]]; try lia;
      inversion Ha; reflexivity.
  - exists req, h1, h2, h3. auto 10.
Defined.

(** After one call with a callback, the request can be completed. *)
Lemma reachable_requests_are_live_witness :
  is_Some (stub_ParamsAsyncAfter 1%positive
             (snd (stub_Params args_with_callback Host_empty))).
Proof.
  destruct (reachable_requests_are_live
              stub_pickparams stub_ScryptErrorDescr stub_Integer_New
              stub_js_call
              (snd (stub_Params args_with_callback Host_empty)))
    as [_ Hlive].
  - apply reachable_Params, reachable_empty.
  - apply (Hlive 1%positive). vm_compute. eauto.
Defined.

(** Two calls with callbacks in flight: their work steps commute. *)
Lemma work_steps_commute_witness :
  let h :=
    snd (stub_Params args_with_callback
           (snd (stub_Params [Number (double_of_Z 5); Function 1%nat]
                   Host_empty))) in
  exists h1 h2 h12 h21,
    stub_ParamsWork 1%positive h = Some h1 /\
    stub_ParamsWork 2%positive h1 = Some h12 /\
    stub_ParamsWork 2%positive h = Some h2 /\
    stub_ParamsWork 1%positive h2 = Some h21 /\
    batons h12 = batons h21.
Proof.
  intros h.
  destruct (work_steps_commute stub_pickparams 1%positive 2%positive h)
    as (h1 & h2 & h12 & h21 & H1 & H12 & H2 & H21 & Hb & _).
  - apply (reachable_heap_ok
             stub_pickparams stub_ScryptErrorDescr stub_Integer_New
             stub_js_call).
    apply reachable_Params, reachable_Params, reachable_empty.
  - discriminate.
  - vm_compute. eauto.
  - vm_compute. eauto.
  - exists h1, h2, h12, h21. auto 10.
Defined.

(** Two calls with callbacks in flight: their completions can be run in
    either order, and both requests are gone afterwards. *)
Lemma completions_commute_witness :
  let h :=
    snd (stub_Params args_with_callback
           (snd (stub_Params [Number (double_of_Z 5); Function 1%nat]
                   Host_empty))) in
  exists h1 h2 h12 h21,
    stub_ParamsAsyncAfter 1%positive h = Some h1 /\
    stub_ParamsAsyncAfter 2%positive h1 = Some h12 /\
    stub_ParamsAsyncAfter 2%positive h = Some h2 /\
    stub_ParamsAsyncAfter 1%positive h2 = Some h21 /\
    requests h12 = requests h21 /\ batons h12 = batons h21 /\
    requests h12 !! 1%positive = None /\ requests h12 !! 2%positive = None.
Proof.
  intros h.
  destruct (completions_commute
              stub_ScryptErrorDescr stub_Integer_New stub_js_call
              1%positive 2%positive h)
    as (b1 & hd1 & f1 & b2 & hd2 & f2 & h1 & h2 & h12 & h21 & _ & _
        & H1 & H12 & H2 & H21 & Hb & Hr & _ & Hn1 & Hn2 & _).
  - apply (reachable_heap_ok
             stub_pickparams stub_ScryptErrorDescr stub_Integer_New
             stub_js_call).
    apply reachable_Params, reachable_Params, reachable_empty.
  - discriminate.
  - vm_compute. eauto.
  - vm_compute. eauto.
  - exists h1, h2, h12, h21. auto 10.
Defined.
